(** * Product reconciliation: a shallow embedding of [cpuhardware.py]
      and of the specification extractors.

    Conventions of the embedding.
    - Python [float] scores are modelled by exact rationals ([Q]), compared
      with [==]; rounding, infinities and NaN are outside the model.
    - Python [str] is modelled by [string]; the character classes [\d], [\w]
      and [str.lower]/[str.strip] are given on ASCII text.
    - A Python [dict] is a [gmap]; a database row is a dict from column
      names to scalar values ([None], booleans, integers, strings); floats,
      decimals and nested containers as values are outside the model.  The
      results do not depend on the order in which a dict is iterated.
    - Raising is explicit: a computation returns [Ok v] or [Raise e].
    - The third-party functions [rapidfuzz.fuzz.token_set_ratio],
      [json.loads] and [re.search] are parameters of the development. *)

From Stdlib Require Import Ascii String QArith Qabs Qminmax Lqa Lia.
From stdpp Require Import gmap strings list fin_maps.

Local Open Scope string_scope.

(** * Part I: the embedding *)

(** ** Exceptions *)

Inductive exn : Set :=
  | KeyError
  | ValueError
  | TypeError
  | AttributeError
  | JSONDecodeError
  | IndexError
  | DatabaseError.

Inductive exc (A : Type) : Type :=
  | Ok (a : A)
  | Raise (e : exn).
Arguments Ok {A} a.
Arguments Raise {A} e.

Definition exc_bind {A B : Type} (m : exc A) (k : A -> exc B) : exc B :=
  match m with
  | Ok a => k a
  | Raise e => Raise e
  end.

Notation "'let!' x ':=' m 'in' k" := (exc_bind m (fun x => k))
  (at level 10, x name, m at level 100, k at level 200).

(** [try: body except classes: handler]; [classes = None] is the clause
    [except Exception], which catches every exception of the model. *)
Definition exn_isinstance (e cls : exn) : bool :=
  match e, cls with
  | KeyError, KeyError | ValueError, ValueError | TypeError, TypeError
  | AttributeError, AttributeError | JSONDecodeError, JSONDecodeError
  | DatabaseError, DatabaseError | IndexError, IndexError => true
  | JSONDecodeError, ValueError => true      (* subclass of ValueError *)
  | _, _ => false
  end.

Definition try_except {A : Type} (body : exc A) (classes : option (list exn))
    (handler : exc A) : exc A :=
  match body with
  | Ok a => Ok a
  | Raise e =>
      match classes with
      | None => handler
      | Some cs => if existsb (exn_isinstance e) cs then handler else Raise e
      end
  end.

(** ** Scalar Python values *)

Inductive pyval : Set :=
  | PNone
  | PBool (b : bool)
  | PInt (z : Z)
  | PStr (s : string).

#[global] Instance pyval_eq_dec : EqDecision pyval.
Proof. solve_decision. Defined.

(** Truth value, as tested by [if not text] and [x or 1]. *)
Definition truthy (v : pyval) : bool :=
  match v with
  | PNone => false
  | PBool b => b
  | PInt z => negb (z =? 0)%Z
  | PStr s => negb (String.eqb s EmptyString)
  end.

(** ** Text primitives on ASCII *)

Definition code (c : ascii) : N := N_of_ascii c.

Definition is_digit (c : ascii) : bool :=
  ((48 <=? code c) && (code c <=? 57))%N.

Definition is_upper (c : ascii) : bool :=
  ((65 <=? code c) && (code c <=? 90))%N.

Definition is_lower (c : ascii) : bool :=
  ((97 <=? code c) && (code c <=? 122))%N.

(** [\w]: letters, digits and the underscore. *)
Definition is_word (c : ascii) : bool :=
  is_digit c || is_upper c || is_lower c || (code c =? 95)%N.

(** Characters removed by [str.strip()]. *)
Definition is_space (c : ascii) : bool :=
  ((9 <=? code c) && (code c <=? 13) || (28 <=? code c) && (code c <=? 32))%N.

Definition lower_char (c : ascii) : ascii :=
  if is_upper c then ascii_of_N (code c + 32) else c.

Fixpoint str_lower (s : string) : string :=
  match s with
  | EmptyString => EmptyString
  | String c s' => String (lower_char c) (str_lower s')
  end.

Fixpoint lstrip (s : string) : string :=
  match s with
  | EmptyString => EmptyString
  | String c s' => if is_space c then lstrip s' else s
  end.

(** Drops trailing white space: a white-space character is kept only when
    something remains after it. *)
Fixpoint rstrip (s : string) : string :=
  match s with
  | EmptyString => EmptyString
  | String c s' =>
      match rstrip s' with
      | EmptyString => if is_space c then EmptyString else String c EmptyString
      | r => String c r
      end
  end.

Definition str_strip (s : string) : string := rstrip (lstrip s).

(** [re.sub(r'\W+', ' ', s)]: every maximal run of non-word characters is
    replaced by one space.  [in_run] records that the previous character
    already belonged to the current run. *)
Fixpoint sub_nonword_runs (in_run : bool) (s : string) : string :=
  match s with
  | EmptyString => EmptyString
  | String c s' =>
      if is_word c then String c (sub_nonword_runs false s')
      else if in_run then sub_nonword_runs true s'
      else String " " (sub_nonword_runs true s')
  end.

(** [str(v)] on scalars. *)
Fixpoint digits_of_pos_fuel (fuel : nat) (n : N) (acc : string) : string :=
  match fuel with
  | O => acc
  | S fuel' =>
      let acc' := String (ascii_of_N (48 + n mod 10)) acc in
      if (n / 10 =? 0)%N then acc' else digits_of_pos_fuel fuel' (n / 10) acc'
  end.

Definition str_of_N (n : N) : string :=
  digits_of_pos_fuel (S (N.to_nat (N.log2 n))) n EmptyString.

Definition py_str (v : pyval) : string :=
  match v with
  | PNone => "None"
  | PBool true => "True"
  | PBool false => "False"
  | PInt z => if (z <? 0)%Z then String "-" (str_of_N (Z.abs_N z)) else str_of_N (Z.abs_N z)
  | PStr s => s
  end.

(** ** [ProductMatcher.normalize_text] *)

Definition normalize_text (text : pyval) : string :=
  if negb (truthy text) then EmptyString
  else sub_nonword_runs false (str_strip (str_lower (py_str text))).

(** ** Prices *)

Local Open Scope Q_scope.

(** [re.sub(r'[^\d.]', '', s)] *)
Fixpoint sub_non_numeric (s : string) : string :=
  match s with
  | EmptyString => EmptyString
  | String c s' =>
      if is_digit c || Ascii.eqb c "." then String c (sub_non_numeric s')
      else sub_non_numeric s'
  end.

Fixpoint all_digits (s : string) : bool :=
  match s with
  | EmptyString => true
  | String c s' => is_digit c && all_digits s'
  end.

Fixpoint digits_value (acc : N) (s : string) : N :=
  match s with
  | EmptyString => acc
  | String c s' => digits_value (10 * acc + (code c - 48)) s'
  end.

(** Splits at the first ["."]: the text before it, and the text after it
    when there is one. *)
Fixpoint split_point (s : string) : string * option string :=
  match s with
  | EmptyString => (EmptyString, None)
  | String c s' =>
      if Ascii.eqb c "." then (EmptyString, Some s')
      else let '(a, b) := split_point s' in (String c a, b)
  end.

Fixpoint pow10 (n : nat) : positive :=
  match n with
  | O => 1%positive
  | S n' => (10 * pow10 n')%positive
  end.

(** [float(s)] on a text made of digits and points: digits with at most one
    point and at least one digit; anything else raises [ValueError]. *)
Definition py_float (s : string) : exc Q :=
  let '(ip, rest) := split_point s in
  let fp := match rest with Some f => f | None => EmptyString end in
  if all_digits ip && all_digits fp && negb (String.eqb (ip ++ fp) EmptyString)
  then Ok (Z.of_N (digits_value 0 (ip ++ fp)) # pow10 (String.length fp))
  else Raise ValueError.

Definition Qgtb (x y : Q) : bool := negb (Qle_bool x y).

(** [x or 1] on a number. *)
Definition or_one (x : Q) : Q := if Qeq_bool x 0 then 1 else x.

Definition calculate_price_similarity (scraped_price db_price : pyval) : exc Q :=
  try_except
    (let! scraped_price := py_float (sub_non_numeric (py_str scraped_price)) in
     let! db_price := py_float (sub_non_numeric (py_str db_price)) in
     let price_difference_percentage :=
       Qabs (scraped_price - db_price) / or_one db_price * 100 in
     let price_similarity := Qmax 0 (100 - price_difference_percentage) in
     Ok price_similarity)
    (Some [ValueError; TypeError])
    (Ok 0).

(** ** Data model *)

(** What [json.loads] may return: an object (a dict of scalar attributes), or
    some other JSON value, of which only the truth value matters here. *)
Inductive json_value : Type :=
  | JObject (m : gmap string pyval)
  | JOther (truth : bool).

Definition json_truthy (j : json_value) : bool :=
  match j with
  | JObject m => negb (Nat.eqb (size m) 0)
  | JOther t => t
  end.

(** The dict built by the scraper for one listing. *)
Record scraped_product : Type := {
  sp_name : string;
  sp_price : string;
  sp_link : string;
  sp_specs : gmap string pyval;
  sp_description : string
}.

(** A row of the catalog table, fetched with [dictionary=True]. *)
Abbreviation db_row := (gmap string pyval).

(** An element of [matches]; the value returned by [find_best_match] is the
    row [product] carrying [score] under the key ['similarity_score']. *)
Record match_entry : Type := {
  product : db_row;
  score : Q
}.

(** [d[k]] and [d.get(k)], [d.get(k, default)]. *)
Definition dict_item (d : db_row) (k : string) : exc pyval :=
  match d !! k with
  | Some v => Ok v
  | None => Raise KeyError
  end.

Definition dict_get_default (d : db_row) (k : string) (dflt : pyval) : pyval :=
  match d !! k with
  | Some v => v
  | None => dflt
  end.

Definition dict_get (d : db_row) (k : string) : pyval := dict_get_default d k PNone.

Definition Qsum (l : list Q) : Q := fold_left Qplus l 0.

Definition Qlen {A : Type} (l : list A) : Q := inject_Z (Z.of_nat (length l)).

(** [matches.sort(key=score, reverse=True)]: a stable sort, so among equal
    scores the earlier element stays first. *)
Fixpoint insert_desc (m : match_entry) (l : list match_entry) : list match_entry :=
  match l with
  | [] => [m]
  | y :: l' =>
      if Qgtb (score y) (score m) then y :: insert_desc m l'
      else m :: y :: l'
  end.

Fixpoint sort_desc (l : list match_entry) : list match_entry :=
  match l with
  | [] => []
  | m :: l' => insert_desc m (sort_desc l')
  end.

(** The default of the parameter [similarity_threshold]. *)
Definition similarity_threshold_default : Q := 70.

(** The weighted sum of [calculate_similarity_score]. *)
Definition total_score (name_similarity spec_similarity price_similarity : Q) : Q :=
  name_similarity * 0.5 + spec_similarity * 0.3 + price_similarity * 0.2.

(** ** [ProductMatcher] *)

Section ProductMatcher.

(** [rapidfuzz.fuzz.token_set_ratio] on two strings. *)
Variable token_set_ratio : string -> string -> Q.

(** [json.loads] on a string. *)
Variable json_loads : string -> exc json_value.

(** [json.loads(v)]: a value that is not text raises [TypeError]. *)
Definition py_json_loads (v : pyval) : exc json_value :=
  match v with
  | PStr s => json_loads s
  | _ => Raise TypeError
  end.

(** The inner loop over [db_specs.items()] for one scraped attribute. *)
Definition best_match_score (normalized_key normalized_scraped_value : string)
    (db_items : list (string * pyval)) : Q :=
  fold_left
    (fun best_match_score '(db_key, db_value) =>
       let normalized_db_key := normalize_text (PStr db_key) in
       let normalized_db_value := normalize_text db_value in
       let key_similarity := token_set_ratio normalized_key normalized_db_key in
       if Qgtb key_similarity 80 then
         let value_similarity :=
           token_set_ratio normalized_scraped_value normalized_db_value in
         Qmax best_match_score value_similarity
       else best_match_score)
    db_items 0.

Definition match_scores (scraped_specs db_specs : gmap string pyval) : list Q :=
  (fun '(key, scraped_value) =>
     best_match_score (normalize_text (PStr key)) (normalize_text scraped_value)
       (map_to_list db_specs))
  <$> map_to_list scraped_specs.

Definition calculate_spec_similarity (scraped_specs : gmap string pyval)
    (db_specs : json_value) : exc Q :=
  if Nat.eqb (size scraped_specs) 0 || negb (json_truthy db_specs) then Ok 0
  else
    match db_specs with
    | JObject db =>
        let scores := match_scores scraped_specs db in
        Ok (match scores with
            | [] => 0
            | _ => Qsum scores / inject_Z (Z.of_nat (length scores))
            end)
    | JOther _ => Raise AttributeError     (* no [items] on a non-dict *)
    end.

Definition calculate_similarity_score (scraped : scraped_product)
    (db_product : db_row) : exc Q :=
  let scraped_name := normalize_text (PStr (sp_name scraped)) in
  let! db_name_value := dict_item db_product "name" in
  let db_name := normalize_text db_name_value in
  let name_similarity := token_set_ratio scraped_name db_name in
  let scraped_specs := sp_specs scraped in
  let! db_specs :=
    if truthy (dict_get db_product "specs")
    then py_json_loads (dict_get_default db_product "specs" (PStr "{}"))
    else Ok (JObject ∅) in
  let! spec_similarity := calculate_spec_similarity scraped_specs db_specs in
  let! price_similarity :=
    calculate_price_similarity (PStr (sp_price scraped)) (dict_get db_product "price") in
  Ok (total_score name_similarity spec_similarity price_similarity).

(** The [for db_product in all_products] loop. *)
Fixpoint collect_matches (scraped : scraped_product) (similarity_threshold : Q)
    (all_products : list db_row) (matches : list match_entry)
    : exc (list match_entry) :=
  match all_products with
  | [] => Ok matches
  | db_product :: rest =>
      let! similarity_score := calculate_similarity_score scraped db_product in
      collect_matches scraped similarity_threshold rest
        (if Qle_bool similarity_threshold similarity_score
         then matches ++ [{| product := db_product; score := similarity_score |}]
         else matches)
  end.

(** [fetch] is the outcome of [cursor.execute] followed by [fetchall]. *)
Definition find_best_match (fetch : exc (list db_row)) (scraped : scraped_product)
    (similarity_threshold : Q) : exc (option match_entry) :=
  try_except
    (let! all_products := fetch in
     let! matches := collect_matches scraped similarity_threshold all_products [] in
     match sort_desc matches with
     | best_match :: _ => Ok (Some best_match)
     | [] => Ok None
     end)
    None
    (Ok None).

(** The wording of the specification for the spec similarity.  A catalog
    attribute is paired with the scraped label [nk] when the normalised
    labels are more than 80 similar; the score of a scraped attribute is the
    maximum value similarity over the paired attributes, 0 when there is
    none; the spec similarity is the average of these scores over the
    scraped attributes. *)
Definition label_accepted (nk : string) (item : string * pyval) : bool :=
  Qgtb (token_set_ratio nk (normalize_text (PStr (fst item)))) 80.

Definition value_similarity (nv : string) (item : string * pyval) : Q :=
  token_set_ratio nv (normalize_text (snd item)).

Definition accepted_value_similarities (nk nv : string)
    (db : gmap string pyval) : list Q :=
  value_similarity nv
  <$> filter (fun item => label_accepted nk item = true) (map_to_list db).

Definition attribute_score (nk nv : string) (db : gmap string pyval) : Q :=
  match accepted_value_similarities nk nv db with
  | [] => 0
  | v :: vs => fold_left Qmax vs v
  end.

Definition average_attribute_score (scraped db : gmap string pyval) : Q :=
  Qsum ((fun '(key, value) =>
           attribute_score (normalize_text (PStr key)) (normalize_text value) db)
        <$> map_to_list scraped)
  / Qlen (map_to_list scraped).

End ProductMatcher.

(** ** Specification extractors *)

(** Flags of [re.search]. *)
Inductive re_flag : Set := IGNORECASE.

(** Number of capturing groups of a pattern: the opening parentheses that are
    neither escaped nor followed by [?]. *)
Fixpoint count_groups_from (escaped : bool) (s : string) : nat :=
  match s with
  | EmptyString => O
  | String c s' =>
      if escaped then count_groups_from false s'
      else if Ascii.eqb c "\" then count_groups_from true s'
      else if Ascii.eqb c "(" then
        match s' with
        | String d _ => if Ascii.eqb d "?" then count_groups_from false s'
                        else S (count_groups_from false s')
        | EmptyString => S O
        end
      else count_groups_from false s'
  end.

Definition count_groups (pattern : string) : nat := count_groups_from false pattern.

(** [match.group(1)] on the tuple [match.groups()]. *)
Definition group_1 (groups : list string) : exc string :=
  match groups with
  | g :: _ => Ok g
  | [] => Raise IndexError
  end.

Module AmazonCPUScraper.

Definition spec_patterns : list (string * string) :=
  [ ("(\d+)\s*Cores?", "Cores");
    ("(\d+)\s*Threads?", "Threads");
    ("(\d+(?:\.\d+)?)\s*GHz\s*Base", "Base Clock");
    ("(\d+(?:\.\d+)?)\s*GHz\s*Boost", "Boost Clock");
    ("(Ryzen\s*\d+|Core\s*i\d+)", "Series") ].

Section Extract.

Variable re_search : string -> string -> list re_flag -> option (list string).

Fixpoint apply_patterns (patterns : list (string * string)) (description : string)
    (specs : gmap string string) : exc (gmap string string) :=
  match patterns with
  | [] => Ok specs
  | (pattern, key) :: rest =>
      match re_search pattern description [IGNORECASE] with
      | Some groups =>
          let! g := group_1 groups in
          apply_patterns rest description (<[key := g]> specs)
      | None => apply_patterns rest description specs
      end
  end.

Definition extract_specifications (description : string)
    : exc (gmap string string) :=
  apply_patterns spec_patterns description ∅.

End Extract.

End AmazonCPUScraper.

Module LaptopScraper.

Definition spec_patterns : list (string * string) :=
  [
    ("(\d+)\s*جيجابايت\s*(?:رام|ذاكرة)", "RAM");
    ("(\d+)\s*جيجابايت\s*SSD", "SSD");
    ("(\d+)\s*تيرابايت\s*(?:قرص صلب|HDD)", "HDD");
    ("(إنتل|Intel|AMD)\s+(?:كور|Core|رايزن|Ryzen)\s*(\w+)", "Processor");
    ("(\d+(?:\.\d+)?)\s*(?:بوصة|inch)", "Screen Size");
    ("(ويندوز|Windows|لينكس|Linux|ماك\s*أو\s*إس|MacOS)", "Operating System") ].

Section Extract.

Variable re_search : string -> string -> list re_flag -> option (list string).

(** [' '.join(match.groups())] is [String.concat " " groups]. *)
Fixpoint apply_patterns (patterns : list (string * string)) (description : string)
    (specs : gmap string string) : gmap string string :=
  match patterns with
  | [] => specs
  | (pattern, key) :: rest =>
      match re_search pattern description [IGNORECASE] with
      | Some groups =>
          apply_patterns rest description (<[key := String.concat " " groups]> specs)
      | None => apply_patterns rest description specs
      end
  end.

Definition extract_specifications (description : string) : gmap string string :=
  apply_patterns spec_patterns description ∅.

End Extract.

End LaptopScraper.

(** The extractor of [laptops.py]: an Arabic and an English rule table; each
    loop stores the first group of its first matching rule and stops, and
    the English table is tried only when the Arabic one stored nothing. *)
Module LaptopDbScraper.

Definition spec_patterns : list (string * string) :=
  [
    ("(\d+)\s*جيجابايت\s*ذاكرة", "RAM");
    ("(\d+)\s*جيجابايت\s*SSD", "SSD");
    ("(\d+)\s*تيرابايت\s*HDD", "HDD");
    ("(إنتل|AMD)\s+(كور|رايزن)\s*(\w+)", "Processor");
    ("(\d+(?:\.\d+)?)\s*بوصة", "Screen Size");
    ("(ويندوز|لينكس|ماك\s*أو\s*إس)", "Operating System") ].

Definition english_patterns : list (string * string) :=
  [
    ("(\d+)\s*GB\s*RAM", "RAM");
    ("(\d+)\s*GB\s*SSD", "SSD");
    ("(\d+)\s*TB\s*HDD", "HDD");
    ("(Intel|AMD)\s+(Core|Ryzen)\s*(\w+)", "Processor");
    ("(\d+(?:\.\d+)?)\s*inch", "Screen Size");
    ("(Windows|Linux|MacOS)", "Operating System") ].

Section Extract.

Variable re_search : string -> string -> list re_flag -> option (list string).

Fixpoint first_match (patterns : list (string * string)) (description : string)
    (specs : gmap string string) : exc (gmap string string) :=
  match patterns with
  | [] => Ok specs
  | (pattern, key) :: rest =>
      match re_search pattern description [IGNORECASE] with
      | Some groups =>
          let! g := group_1 groups in
          Ok (<[key := g]> specs)                      (* [break] *)
      | None => first_match rest description specs
      end
  end.

Definition extract_specifications (description : string) : exc (gmap string string) :=
  let! specs := first_match spec_patterns description ∅ in
  if Nat.eqb (size specs) 0 then first_match english_patterns description specs
  else Ok specs.

End Extract.

End LaptopDbScraper.

(** ** The matching loop of [main] in [cpuhardware.py] *)

(** An element of [matched_products]. *)
Record matched_product : Type := {
  mp_scraped_product : scraped_product;
  mp_database_match : match_entry;
  mp_similarity_score : Q
}.

Section MatchingLoop.

Variable token_set_ratio : string -> string -> Q.
Variable json_loads : string -> exc json_value.

(** [for cpu in scraped_cpus]: every product comes with the outcome of the
    catalog read that its call of [find_best_match] performs. *)
Fixpoint match_products (scraped_cpus : list (scraped_product * exc (list db_row)))
    (matched_products : list matched_product) : exc (list matched_product) :=
  match scraped_cpus with
  | [] => Ok matched_products
  | (cpu, fetch) :: rest =>
      let! best_match :=
        find_best_match token_set_ratio json_loads fetch cpu similarity_threshold_default in
      match best_match with
      | Some m =>
          match_products rest
            (matched_products
             ++ [{| mp_scraped_product := cpu;
                    mp_database_match := m;
                    mp_similarity_score := score m |}])%list
      | None => match_products rest matched_products
      end
  end.

End MatchingLoop.

(** ** Price assembly in [AmazonCPUScraper.scrape_cpu_data] *)

(** The texts of the elements [a-price-whole] and [a-price-fraction], [None]
    when the element is not found. *)
Definition assemble_price (price_whole price_fraction : option string) : string :=
  match price_whole, price_fraction with
  | Some whole, Some fraction => str_strip whole ++ "." ++ str_strip fraction
  | Some whole, None => str_strip whole
  | None, _ => "N/A"
  end.

(** ** [clean_text] of the laptop scrapers, on Unicode text *)

(** A text as the list of its code points. *)
Abbreviation utext := (list N).

(** [str.isspace] for one character: the characters [str.split()] splits at. *)
Definition py_isspace (c : N) : bool :=
  ((9 <=? c) && (c <=? 13) || (28 <=? c) && (c <=? 32)
   || (c =? 133) || (c =? 160) || (c =? 5760)
   || (8192 <=? c) && (c <=? 8202)
   || (c =? 8232) || (c =? 8233) || (c =? 8239) || (c =? 8287) || (c =? 12288))%N.

(** [text.split()]: the maximal runs of characters that are not white space;
    [word] is the run being read. *)
Fixpoint split_from (word : utext) (text : utext) : list utext :=
  match text with
  | [] => match word with [] => [] | _ => [word] end
  | c :: text' =>
      if py_isspace c then
        match word with
        | [] => split_from [] text'
        | _ => word :: split_from [] text'
        end
      else split_from (word ++ [c]) text'
  end.

Definition py_split (text : utext) : list utext := split_from [] text.

(** [sep.join(words)] *)
Fixpoint py_join (sep : utext) (words : list utext) : utext :=
  match words with
  | [] => []
  | [w] => w
  | w :: ws => w ++ sep ++ py_join sep ws
  end.

(** [text.replace(old, new)] for two one-character strings. *)
Definition replace_char (old new : N) (text : utext) : utext :=
  map (fun c => if (c =? old)%N then new else c) text.

(** The dict [arabic_numerals] of [laptopexcel.py], in insertion order:
    U+0660 .. U+0669 to the digits 0 .. 9. *)
Definition arabic_numerals : list (N * N) :=
  [ (1632, 48); (1633, 49); (1634, 50); (1635, 51); (1636, 52);
    (1637, 53); (1638, 54); (1639, 55); (1640, 56); (1641, 57) ]%N.

(** [LaptopScraper.clean_text] of [laptopexcel.py]. *)
Definition clean_text (text : utext) : utext :=
  match text with
  | [] => []
  | _ =>
      let text := py_join [32%N] (py_split text) in
      fold_left (fun text '(arabic_num, western_num) =>
                   replace_char arabic_num western_num text)
                arabic_numerals text
  end.

(** [LaptopScraper.clean_text] of [laptops.py]: a chain of [replace]. *)
Definition clean_text_chained (text : utext) : utext :=
  match text with
  | [] => []
  | _ =>
      let text := py_join [32%N] (py_split text) in
      replace_char 1641 57 (replace_char 1640 56 (replace_char 1639 55
        (replace_char 1638 54 (replace_char 1637 53 (replace_char 1636 52
          (replace_char 1635 51 (replace_char 1634 50 (replace_char 1633 49
            (replace_char 1632 48 text)))))))))
  end.

(** ** [insert_laptops_to_db] of [laptops.py] *)

(** A scraped laptop and a row of the table [laptops]. *)
Record laptop : Type := {
  lp_name : string;
  lp_price : string;
  lp_link : string;
  lp_specs : gmap string string;
  lp_description : string
}.

Record laptop_row : Type := {
  row_name : string;
  row_price : string;
  row_link : string;
  row_specs : string;
  row_description : string
}.

(** What the database does in one iteration: nothing wrong, or an error
    raised by the [SELECT], or an error raised by the [INSERT].  The table is
    the view of the connection, so an error raised by [commit] leaves the
    inserted row in it and is the first case. *)
Inductive db_fault : Set := NoFault | SelectFault | InsertFault.

Section InsertLaptops.

(** [json.dumps(specs, ensure_ascii=False)] *)
Variable json_dumps : gmap string string -> string.

(** The comparison [name = ?] of the database, under the collation of the
    column. *)
Variable name_eq : string -> string -> bool.

(** [SELECT COUNT( * ) FROM laptops WHERE name = ?] *)
Definition select_count (table : list laptop_row) (name : string) : nat :=
  length (filter (fun r => name_eq (row_name r) name = true) table).

Definition row_of_laptop (l : laptop) : laptop_row := {|
  row_name := lp_name l;
  row_price := lp_price l;
  row_link := lp_link l;
  row_specs := json_dumps (lp_specs l);
  row_description := lp_description l
|}.

(** The body of the loop, with its handler [except mariadb.Error]. *)
Definition insert_laptop (table : list laptop_row) (l : laptop) (fault : db_fault)
    : exc (list laptop_row) :=
  try_except
    (let! count :=
       match fault with
       | SelectFault => Raise DatabaseError
       | _ => Ok (select_count table (lp_name l))
       end in
     if (0 <? count)%nat then Ok table                 (* [continue] *)
     else
       match fault with
       | InsertFault => Raise DatabaseError
       | _ => Ok (table ++ [row_of_laptop l])%list
       end)
    (Some [DatabaseError])
    (Ok table).

Fixpoint insert_laptops_to_db (table : list laptop_row)
    (laptops : list (laptop * db_fault)) : exc (list laptop_row) :=
  match laptops with
  | [] => Ok table
  | (l, fault) :: rest =>
      let! table' := insert_laptop table l fault in
      insert_laptops_to_db table' rest
  end.

End InsertLaptops.

(** ** [scrap.py] *)

(** [date.replace("/", "-")] *)
Fixpoint sanitize_date (date : string) : string :=
  match date with
  | EmptyString => EmptyString
  | String c date' =>
      String (if Ascii.eqb c "/" then "-"%char else c) (sanitize_date date')
  end.

(** The name of the file that [main] writes. *)
Definition matches_file_name (date : string) : string :=
  "matches_" ++ sanitize_date date ++ ".csv".

(** ** Page addresses of the three scrapers *)

Fixpoint is_prefix (p s : string) : bool :=
  match p, s with
  | EmptyString, _ => true
  | String a p', String b s' => Ascii.eqb a b && is_prefix p' s'
  | String _ _, EmptyString => false
  end.

(** [needle in text] *)
Fixpoint contains (needle text : string) : bool :=
  is_prefix needle text
  || match text with
     | EmptyString => false
     | String _ text' => contains needle text'
     end.

(** [f"{self.url}&page={page}"] in [cpuhardware.py] *)
Definition cpu_paginated_url (url : string) (page : Z) : string :=
  url ++ "&page=" ++ py_str (PInt page).

(** [laptopexcel.py] *)
Definition laptopexcel_paginated_url (url : string) (page : Z) : string :=
  if contains "?_" url then url ++ "&p=" ++ py_str (PInt page)
  else url ++ "?p=" ++ py_str (PInt page).

(** [f"{self.url}?page={page}"] in [laptops.py] *)
Definition laptops_paginated_url (url : string) (page : Z) : string :=
  url ++ "?page=" ++ py_str (PInt page).

(** ** Notions used in the statements *)

Fixpoint has_digit (s : string) : bool :=
  match s with
  | EmptyString => false
  | String c s' => is_digit c || has_digit s'
  end.

(** Number of occurrences of a character. *)
Fixpoint count_char (a : ascii) (s : string) : nat :=
  match s with
  | EmptyString => O
  | String c s' => (if Ascii.eqb c a then 1 else 0) + count_char a s'
  end.

(** The Arabic-Indic digits U+0660 .. U+0669, and the Western digit of each;
    other characters are their own image. *)
Definition is_arabic_digit (c : N) : bool := ((1632 <=? c) && (c <=? 1641))%N.

Definition western_digit (c : N) : N :=
  if is_arabic_digit c then (c - 1584)%N else c.

(** Every white-space character is a U+0020 followed by a character that is
    not white space. *)
Fixpoint spaces_ok (text : utext) : bool :=
  match text with
  | [] => true
  | c :: text' =>
      (negb (py_isspace c)
       || (c =? 32)%N
          && match text' with d :: _ => negb (py_isspace d) | [] => false end)
      && spaces_ok text'
  end.

(** No white space at either end, and single U+0020 between the words. *)
Definition well_spaced (text : utext) : bool :=
  match text with
  | [] => true
  | c :: _ => negb (py_isspace c)
  end && spaces_ok text.

(** A word: a non-empty text without white space. *)
Definition no_space (w : utext) : bool := forallb (fun c => negb (py_isspace c)) w.

Definition word_ok (w : utext) : Prop := w <> [] /\ no_space w = true.

(** No row is followed by a row whose name the database takes for equal. *)
Fixpoint names_distinct (name_eq : string -> string -> bool)
    (table : list laptop_row) : Prop :=
  match table with
  | [] => True
  | r :: rest =>
      Forall (fun r' => name_eq (row_name r) (row_name r') = false) rest /\
      names_distinct name_eq rest
  end.





(** [sum(l) / len(l) if l else 0] *)
Definition guarded_average (l : list Q) : Q :=
  match l with
  | [] => 0
  | _ => Qsum l / inject_Z (Z.of_nat (length l))
  end.

(** ** Running the model

    Stand-ins for the library functions.  [tsr_ref] agrees with
    [token_set_ratio] where it is used below: identical texts made of words
    score 100, and a comparison with the empty text scores 0.  [json_ref]
    agrees with [json.loads] on the texts used below: the two objects are
    decoded and the two malformed texts are rejected. *)

Definition tsr_ref (a b : string) : Q :=
  if String.eqb a EmptyString || String.eqb b EmptyString then 0
  else if String.eqb a b then 100 else 0.

Definition dquote : string := String (ascii_of_nat 34) EmptyString.

(** The text [{"Cores": "12"}]. *)
Definition json_cores_12 : string :=
  "{" ++ dquote ++ "Cores" ++ dquote ++ ": " ++ dquote ++ "12" ++ dquote ++ "}".

Definition json_ref (s : string) : exc json_value :=
  if String.eqb s "{}" then Ok (JObject ∅)
  else if String.eqb s json_cores_12 then Ok (JObject {[ "Cores" := PStr "12" ]})
  else Raise JSONDecodeError.     (* in particular for "{" and "Cores=12" *)

Definition cpu_text : string := "Desktop processor with 12 cores".

Definition laptop_text : string := "Intel Core i7 16GB RAM 15.6 inch Windows".

Definition scraped_ryzen : scraped_product := {|
  sp_name := "AMD Ryzen 9 5900X";
  sp_price := "$299.99";
  sp_link := "https://www.amazon.com/dp/B08164VTWH";
  sp_specs := {[ "Cores" := PStr "12" ]};
  sp_description := cpu_text
|}.

Definition row_5900x : db_row :=
  {[ "name" := PStr "amd ryzen 9 5900x"; "price" := PStr "299.99";
     "specs" := PStr json_cores_12 ]}.

Definition row_unnamed : db_row :=
  {[ "name" := PNone; "price" := PStr "199.00"; "specs" := PNone ]}.

Definition row_truncated_specs : db_row :=
  {[ "name" := PStr "AMD Ryzen 7 5800X"; "price" := PStr "249.99";
     "specs" := PStr "{" ]}.

Definition row_not_json_specs : db_row :=
  {[ "name" := PStr "AMD Ryzen 7 5800X"; "price" := PStr "249.99";
     "specs" := PStr "Cores=12" ]}.

Definition scraped_unpriced : scraped_product := {|
  sp_name := "AMD Ryzen 9 5900X";
  sp_price := "N/A";
  sp_link := "https://www.amazon.com/dp/B08164VTWH";
  sp_specs := ∅;
  sp_description := EmptyString
|}.

(** A second row for the same processor, to have a tie. *)
Definition row_5900x_oem : db_row :=
  {[ "name" := PStr "AMD Ryzen 9 5900X"; "price" := PStr "299.99";
     "specs" := PStr json_cores_12 ]}.

(** Stand-ins for [json.dumps] and for the comparison of names by the
    database; the sample laptops have no specs, and [json.dumps] of the empty
    dict is the text of the empty object. *)
Definition json_dumps_ref (specs : gmap string string) : string := "{}".

Definition laptop_ideapad : laptop := {|
  lp_name := "Lenovo IdeaPad 3";
  lp_price := "15999";
  lp_link := "https://2b.com.eg/ar/lenovo-ideapad-3.html";
  lp_specs := ∅;
  lp_description := "No description available"
|}.

Definition laptop_vivobook : laptop := {|
  lp_name := "ASUS VivoBook 15";
  lp_price := "18499";
  lp_link := "https://2b.com.eg/ar/asus-vivobook-15.html";
  lp_specs := ∅;
  lp_description := "No description available"
|}.

Definition table_hp : list laptop_row :=
  [ {| row_name := "HP 250 G8"; row_price := "13999";
       row_link := "https://2b.com.eg/ar/hp-250-g8.html";
       row_specs := "{}"; row_description := "No description available" |} ].

Definition catalog_specs : gmap string pyval :=
  {[ "cores" := PInt 12; "Boost Clock" := PStr "4.8" ]}.

(** A stand-in for [re.search] with [re.IGNORECASE]: it holds the matches of
    the patterns of the rule tables on the two descriptions above, and
    reports no match elsewhere. *)

(** description, pattern, captured groups *)
Definition re_table : list (string * string * list string) :=
  [ (cpu_text, "(\d+)\s*Cores?", ["12"]);
    (laptop_text, "(إنتل|Intel|AMD)\s+(?:كور|Core|رايزن|Ryzen)\s*(\w+)", ["Intel"; "i7"]);
    (laptop_text, "(\d+(?:\.\d+)?)\s*(?:بوصة|inch)", ["15.6"]);
    (laptop_text, "(ويندوز|Windows|لينكس|Linux|ماك\s*أو\s*إس|MacOS)", ["Windows"]);
    (laptop_text, "(\d+)\s*GB\s*RAM", ["16"]);
    (laptop_text, "(Intel|AMD)\s+(Core|Ryzen)\s*(\w+)", ["Intel"; "Core"; "i7"]);
    (laptop_text, "(\d+(?:\.\d+)?)\s*inch", ["15.6"]);
    (laptop_text, "(Windows|Linux|MacOS)", ["Windows"]);
    (laptop_text, "(Ryzen\s*\d+|Core\s*i\d+)", ["Core i7"]) ].

Definition re_ref (pattern text : string) (flags : list re_flag) : option (list string) :=
  match find (fun e => String.eqb (fst (fst e)) text && String.eqb (snd (fst e)) pattern)
             re_table with
  | Some e => Some (snd e)
  | None => None
  end.

(** * Part II: properties *)

Example py_str_int :
  py_str (PInt 1280) = "1280" /\ py_str (PInt (-7)) = "-7" /\ py_str (PInt 0) = "0".
Proof. repeat split; reflexivity. Qed.

Example normalize_text_title :
  normalize_text (PStr "  AMD Ryzen(TM) 9 -- 5900X ") = "amd ryzen tm 9 5900x".
Proof. reflexivity. Qed.

Example count_groups_cpu :
  count_groups <$> AmazonCPUScraper.spec_patterns.*1 = [1; 1; 1; 1; 1]%nat.
Proof. reflexivity. Qed.

Example count_groups_laptop :
  count_groups <$> LaptopScraper.spec_patterns.*1 = [1; 1; 1; 2; 1; 1]%nat.
Proof. reflexivity. Qed.

(** ** The exception combinators *)

Lemma try_except_all_returns {A : Type} (body handler : exc A) (h : A) :
  handler = Ok h -> exists r, try_except body None handler = Ok r.
Proof.
  intros ->. destruct body as [a|e]; simpl; eauto.
Qed.

Lemma exc_bind_ok {A B : Type} (m : exc A) (k : A -> exc B) (b : B) :
  exc_bind m k = Ok b -> exists a, m = Ok a /\ k a = Ok b.
Proof.
  destruct m as [a|e]; simpl; [eauto | discriminate].
Qed.

(** ** Prices *)

Lemma py_float_nonneg (s : string) (q : Q) : py_float s = Ok q -> 0 <= q.
Proof.
  unfold py_float. destruct (split_point s) as [ip rest].
  destruct (_ && _); [|discriminate].
  intros [= <-]. unfold Qle; simpl. lia.
Qed.

Lemma py_float_raises (s : string) (e : exn) : py_float s = Raise e -> e = ValueError.
Proof.
  unfold py_float. destruct (split_point s) as [ip rest].
  destruct (_ && _); [discriminate|]. congruence.
Qed.

Lemma or_one_pos (d : Q) : 0 <= d -> 0 < or_one d.
Proof.
  intros Hd. unfold or_one. destruct (Qeq_bool d 0) eqn:E; [reflexivity|].
  apply Qeq_bool_neq in E. apply Qle_lteq in Hd as [Hd|Hd]; [exact Hd|].
  exfalso. apply E. symmetry. exact Hd.
Qed.



(** The value computed in the [try] block once both prices are parsed. *)
Lemma calculate_price_similarity_parsed (a b : pyval) (s d : Q) :
  py_float (sub_non_numeric (py_str a)) = Ok s ->
  py_float (sub_non_numeric (py_str b)) = Ok d ->
  calculate_price_similarity a b
  = Ok (Qmax 0 (100 - Qabs (s - d) / or_one d * 100)).
Proof.
  intros Ha Hb. unfold calculate_price_similarity. rewrite Ha, Hb. reflexivity.
Qed.

Lemma calculate_price_similarity_unparsed (a b : pyval) :
  (exists e, py_float (sub_non_numeric (py_str a)) = Raise e) \/
  (exists e, py_float (sub_non_numeric (py_str b)) = Raise e) ->
  calculate_price_similarity a b = Ok 0.
Proof.
  unfold calculate_price_similarity.
  intros [[e He]|[e He]].
  - rewrite He. apply py_float_raises in He as ->. reflexivity.
  - rewrite He. apply py_float_raises in He as ->.
    destruct (py_float (sub_non_numeric (py_str a))) as [s|e'] eqn:Ha; simpl.
    + reflexivity.
    + apply py_float_raises in Ha as ->. reflexivity.
Qed.

Lemma calculate_price_similarity_range (a b : pyval) :
  exists q, calculate_price_similarity a b = Ok q /\ 0 <= q <= 100.
Proof.
  destruct (py_float (sub_non_numeric (py_str a))) as [s|e] eqn:Ha.
  - destruct (py_float (sub_non_numeric (py_str b))) as [d|e] eqn:Hb.
    + rewrite (calculate_price_similarity_parsed a b s d Ha Hb).
      eexists; split; [reflexivity|].
      assert (Hpos : 0 < or_one d) by (apply or_one_pos, (py_float_nonneg _ _ Hb)).
      assert (Hx : 0 <= Qabs (s - d) / or_one d * 100).
      { apply Qmult_le_0_compat; [|discriminate].
        apply Qle_shift_div_l; [exact Hpos|].
        rewrite Qmult_0_l. apply Qabs_nonneg. }
      split; [apply Q.le_max_l|].
      apply Q.max_lub; [discriminate|]. lra.
    + rewrite calculate_price_similarity_unparsed by eauto.
      eexists; split; [reflexivity|]. split; discriminate.
  - rewrite calculate_price_similarity_unparsed by eauto.
    eexists; split; [reflexivity|]. split; discriminate.
Qed.


Lemma has_digit_app (s t : string) :
  has_digit (s ++ t) = has_digit s || has_digit t.
Proof.
  induction s as [|c s IH]; simpl; [reflexivity|].
  rewrite IH. now destruct (is_digit c).
Qed.









(** ** [normalize_text] *)

Lemma lower_char_not_upper (c : ascii) : is_upper (lower_char c) = false.
Proof. destruct c as [[] [] [] [] [] [] [] []]; reflexivity. Qed.










(** ** Sorting the matches *)

Lemma Qgtb_true (x y : Q) : Qgtb x y = true <-> y < x.
Proof.
  unfold Qgtb. rewrite negb_true_iff, <- not_true_iff_false, Qle_bool_iff.
  split; [apply Qnot_le_lt | apply Qlt_not_le].
Qed.

Lemma Qgtb_false (x y : Q) : Qgtb x y = false <-> x <= y.
Proof.
  unfold Qgtb. rewrite negb_false_iff. apply Qle_bool_iff.
Qed.

Lemma insert_desc_head (m : match_entry) (l : list match_entry) :
  exists rest,
    insert_desc m l
    = match l with
      | [] => m
      | y :: _ => if Qgtb (score y) (score m) then y else m
      end :: rest.
Proof.
  destruct l as [|y l]; simpl; [now exists []|].
  destruct (Qgtb (score y) (score m)); eauto.
Qed.

(** The first element of the sorted list is an element of greatest score. *)
Lemma sort_desc_head (l : list match_entry) :
  match sort_desc l with
  | [] => l = []
  | b :: _ => b ∈ l /\ forall m, m ∈ l -> score m <= score b
  end.
Proof.
  induction l as [|x l IH]; simpl; [reflexivity|].
  destruct (insert_desc_head x (sort_desc l)) as [rest ->].
  destruct (sort_desc l) as [|y r].
  - subst l. split; [left|].
    intros m Hm. apply elem_of_cons in Hm as [->|Hm]; [apply Qle_refl|].
    now apply elem_of_nil in Hm.
  - destruct IH as [Hyl Hmax].
    destruct (Qgtb (score y) (score x)) eqn:E.
    + apply Qgtb_true in E. split; [now right|].
      intros m Hm. apply elem_of_cons in Hm as [->|Hm]; [now apply Qlt_le_weak|].
      now apply Hmax.
    + apply Qgtb_false in E. split; [left|].
      intros m Hm. apply elem_of_cons in Hm as [->|Hm]; [apply Qle_refl|].
      eapply Qle_trans; [apply Hmax, Hm | exact E].
Qed.

(** ** The matcher *)

Section MatcherProperties.

Variable token_set_ratio : string -> string -> Q.
Variable json_loads : string -> exc json_value.

Local Abbreviation score_of := (calculate_similarity_score token_set_ratio json_loads).
Local Abbreviation collect := (collect_matches token_set_ratio json_loads).
Local Abbreviation best := (find_best_match token_set_ratio json_loads).

(** What [calculate_similarity_score] computes when it returns. *)
Lemma calculate_similarity_score_ok (scraped : scraped_product) (db : db_row) (t : Q) :
  score_of scraped db = Ok t ->
  exists db_name db_specs s p,
    dict_item db "name" = Ok db_name /\
    (if truthy (dict_get db "specs")
     then py_json_loads json_loads (dict_get_default db "specs" (PStr "{}"))
     else Ok (JObject ∅)) = Ok db_specs /\
    calculate_spec_similarity token_set_ratio (sp_specs scraped) db_specs = Ok s /\
    calculate_price_similarity (PStr (sp_price scraped)) (dict_get db "price") = Ok p /\
    t = total_score
          (token_set_ratio (normalize_text (PStr (sp_name scraped))) (normalize_text db_name))
          s p.
Proof.
  unfold calculate_similarity_score. intros H.
  apply exc_bind_ok in H as (db_name & Hn & H).
  apply exc_bind_ok in H as (db_specs & Hs & H).
  apply exc_bind_ok in H as (s & Hss & H).
  apply exc_bind_ok in H as (p & Hp & H).
  injection H as <-. exists db_name, db_specs, s, p. auto.
Qed.

(** The loop either scores every row or stops at the first exception. *)
Lemma collect_matches_ok (scraped : scraped_product) (thr : Q)
    (rows : list db_row) (acc ms : list match_entry) :
  collect scraped thr rows acc = Ok ms ->
  (forall r, r ∈ rows -> exists s, score_of scraped r = Ok s) /\
  (forall m, m ∈ ms <->
     m ∈ acc \/
     (product m ∈ rows /\ score_of scraped (product m) = Ok (score m) /\ thr <= score m)).
Proof.
  revert acc. induction rows as [|r rows IH]; simpl; intros acc H.
  - injection H as <-. split.
    + intros r Hr. now apply elem_of_nil in Hr.
    + intros m. split; [now left|]. intros [Hm|[Hm _]]; [exact Hm|].
      now apply elem_of_nil in Hm.
  - apply exc_bind_ok in H as (s & Hs & H). apply IH in H as [Hall Hms]. split.
    + intros r' Hr'. apply elem_of_cons in Hr' as [->|Hr']; eauto.
    + intros m. rewrite Hms. clear Hms IH.
      destruct (Qle_bool thr s) eqn:E.
      * apply Qle_bool_iff in E. rewrite elem_of_app, list_elem_of_singleton. split.
        -- intros [[Hm| ->]|(Hp & Hsc & Hle)]; [now left | right | right].
           ++ simpl. split; [left|]. split; [exact Hs | exact E].
           ++ split; [now right|]. split; assumption.
        -- intros [Hm|(Hp & Hsc & Hle)]; [now left; left|].
           apply elem_of_cons in Hp as [Hp|Hp].
           ++ left; right. destruct m as [pm sm]; simpl in *. subst pm.
              rewrite Hs in Hsc. now injection Hsc as ->.
           ++ right. split; [exact Hp|]. split; assumption.
      * split.
        -- intros [Hm|(Hp & Hsc & Hle)]; [now left | right].
           split; [now right|]. split; assumption.
        -- intros [Hm|(Hp & Hsc & Hle)]; [now left|].
           apply elem_of_cons in Hp as [Hp|Hp].
           ++ exfalso. rewrite Hp in Hsc. rewrite Hs in Hsc.
              injection Hsc as ->. apply Qle_bool_iff in Hle. congruence.
           ++ right. split; [exact Hp|]. split; assumption.
Qed.

Lemma collect_matches_total (scraped : scraped_product) (thr : Q)
    (rows : list db_row) (acc : list match_entry) :
  (forall r, r ∈ rows -> exists s, score_of scraped r = Ok s) ->
  exists ms, collect scraped thr rows acc = Ok ms.
Proof.
  revert acc. induction rows as [|r rows IH]; simpl; intros acc Hall; [eauto|].
  destruct (Hall r) as [s Hs]; [left|].
  rewrite Hs. simpl. apply IH.
  intros r' Hr'. apply Hall. now right.
Qed.

Lemma collect_matches_raises (scraped : scraped_product) (thr : Q)
    (rows : list db_row) (acc : list match_entry) :
  (exists r e, r ∈ rows /\ score_of scraped r = Raise e) ->
  exists e, collect scraped thr rows acc = Raise e.
Proof.
  revert acc. induction rows as [|r rows IH]; simpl; intros acc (r' & e & Hr' & He).
  - now apply elem_of_nil in Hr'.
  - destruct (score_of scraped r) as [s|e'] eqn:Hs; simpl; [|eauto].
    apply IH. apply elem_of_cons in Hr' as [->|Hr']; [congruence|eauto].
Qed.

(** The three outcomes of [find_best_match] on a catalog that was read. *)
Lemma find_best_match_some (rows : list db_row) (scraped : scraped_product)
    (thr : Q) (m : match_entry) :
  best (Ok rows) scraped thr = Ok (Some m) ->
  product m ∈ rows /\ score_of scraped (product m) = Ok (score m) /\ thr <= score m /\
  (forall r s, r ∈ rows -> score_of scraped r = Ok s -> s <= score m).
Proof.
  unfold find_best_match. simpl.
  destruct (collect scraped thr rows []) as [ms|e] eqn:Hc; simpl; [|discriminate].
  apply collect_matches_ok in Hc as [Hall Hms].
  pose proof (sort_desc_head ms) as Hh.
  destruct (sort_desc ms) as [|b rest]; [discriminate|].
  intros [= ->]. destruct Hh as [Hin Hmax].
  apply Hms in Hin as [Hin|(Hp & Hs & Hle)]; [now apply elem_of_nil in Hin|].
  repeat split; try assumption.
  intros r s Hr Hrs.
  destruct (Qlt_le_dec s thr) as [Hlt|Hge].
  - apply Qlt_le_weak. eapply Qlt_le_trans; eassumption.
  - apply (Hmax {| product := r; score := s |}). apply Hms. right. simpl. auto.
Qed.

Lemma find_best_match_all_scored (rows : list db_row) (scraped : scraped_product)
    (thr : Q) :
  (forall r, r ∈ rows -> exists s, score_of scraped r = Ok s) ->
  (exists r s, r ∈ rows /\ score_of scraped r = Ok s /\ thr <= s) ->
  exists m, best (Ok rows) scraped thr = Ok (Some m).
Proof.
  intros Hall (r & s & Hr & Hs & Hle).
  unfold find_best_match. simpl.
  destruct (collect_matches_total scraped thr rows [] Hall) as [ms Hc].
  rewrite Hc. simpl.
  apply collect_matches_ok in Hc as [_ Hms].
  pose proof (sort_desc_head ms) as Hh.
  destruct (sort_desc ms) as [|b rest]; [|eauto].
  exfalso. subst ms.
  assert (Hin : {| product := r; score := s |} ∈ @nil match_entry)
    by (apply Hms; right; simpl; auto).
  now apply elem_of_nil in Hin.
Qed.

Lemma find_best_match_none_reaches (rows : list db_row) (scraped : scraped_product)
    (thr : Q) :
  (forall r s, r ∈ rows -> score_of scraped r = Ok s -> ~ thr <= s) ->
  best (Ok rows) scraped thr = Ok None.
Proof.
  intros Hnone. unfold find_best_match. simpl.
  destruct (collect scraped thr rows []) as [ms|e] eqn:Hc; simpl; [|reflexivity].
  apply collect_matches_ok in Hc as [_ Hms].
  pose proof (sort_desc_head ms) as Hh.
  destruct (sort_desc ms) as [|b rest]; [reflexivity|].
  destruct Hh as [Hin _]. apply Hms in Hin as [Hin|(Hp & Hs & Hle)].
  - now apply elem_of_nil in Hin.
  - exfalso. exact (Hnone _ _ Hp Hs Hle).
Qed.

Lemma find_best_match_raising_row (rows : list db_row) (scraped : scraped_product)
    (thr : Q) :
  (exists r e, r ∈ rows /\ score_of scraped r = Raise e) ->
  best (Ok rows) scraped thr = Ok None.
Proof.
  intros H. unfold find_best_match. simpl.
  destruct (collect_matches_raises scraped thr rows [] H) as [e ->]. reflexivity.
Qed.

Lemma find_best_match_returns (fetch : exc (list db_row)) (scraped : scraped_product)
    (thr : Q) :
  exists r, best fetch scraped thr = Ok r.
Proof.
  unfold find_best_match. apply (try_except_all_returns _ _ None). reflexivity.
Qed.

(** C5: the composite score is 0.5 name + 0.3 spec + 0.2 price, and it is
    non-decreasing in each sub-score, the other two being fixed. *)
Theorem calculate_similarity_score_weighted :
  (forall scraped db t,
     calculate_similarity_score token_set_ratio json_loads scraped db = Ok t ->
     exists db_name db_specs name_similarity spec_similarity price_similarity,
       dict_item db "name" = Ok db_name /\
       name_similarity
       = token_set_ratio (normalize_text (PStr (sp_name scraped))) (normalize_text db_name) /\
       (if truthy (dict_get db "specs")
        then py_json_loads json_loads (dict_get_default db "specs" (PStr "{}"))
        else Ok (JObject ∅)) = Ok db_specs /\
       calculate_spec_similarity token_set_ratio (sp_specs scraped) db_specs
       = Ok spec_similarity /\
       calculate_price_similarity (PStr (sp_price scraped)) (dict_get db "price")
       = Ok price_similarity /\
       t == 0.5 * name_similarity + 0.3 * spec_similarity + 0.2 * price_similarity) /\
  (forall n n' s p, n <= n' -> total_score n s p <= total_score n' s p) /\
  (forall n s s' p, s <= s' -> total_score n s p <= total_score n s' p) /\
  (forall n s p p', p <= p' -> total_score n s p <= total_score n s p').
Proof.
  split; [|unfold total_score; repeat split; intros; lra].
  intros scraped db t H.
  apply calculate_similarity_score_ok in H as (dn & ds & s & p & Hn & Hs & Hss & Hp & ->).
  exists dn, ds. eexists. exists s, p.
  split; [exact Hn|]. split; [reflexivity|]. repeat split; try assumption.
  unfold total_score. ring.
Qed.

(** C8: [find_best_match] never raises: it returns a match or [None]
    whatever the catalog read and the rows are; a failed read and a catalog
    of rows that all fail to score both give [None], the very result of a
    search in an empty catalog. *)
Theorem find_best_match_never_raises :
  (forall fetch scraped thr,
     exists r, find_best_match token_set_ratio json_loads fetch scraped thr = Ok r) /\
  (forall e scraped thr,
     find_best_match token_set_ratio json_loads (Raise e) scraped thr = Ok None /\
     find_best_match token_set_ratio json_loads (Raise e) scraped thr
     = find_best_match token_set_ratio json_loads (Ok []) scraped thr) /\
  (forall rows scraped thr,
     (forall r, r ∈ rows ->
        exists e, calculate_similarity_score token_set_ratio json_loads scraped r = Raise e) ->
     find_best_match token_set_ratio json_loads (Ok rows) scraped thr = Ok None).
Proof.
  split; [|split].
  - apply find_best_match_returns.
  - intros e scraped thr. split; reflexivity.
  - intros rows scraped thr Hall. destruct rows as [|r rows]; [reflexivity|].
    apply find_best_match_raising_row.
    destruct (Hall r) as [e He]; [left|]. exists r, e. split; [left | exact He].
Qed.

(** C1 (amended): scoring is not isolated per candidate.  If scoring any
    candidate raises, the scan is abandoned and [find_best_match] returns
    [None] whatever the other candidates are; when no candidate raises, it
    returns the highest-scoring candidate at or above the threshold, or
    [None] when there is none. *)
Theorem find_best_match_scoring_fault (rows : list db_row)
    (scraped : scraped_product) (thr : Q) :
  ((exists r e,
      r ∈ rows /\
      calculate_similarity_score token_set_ratio json_loads scraped r = Raise e) ->
   find_best_match token_set_ratio json_loads (Ok rows) scraped thr = Ok None) /\
  ((forall r, r ∈ rows ->
      exists s, calculate_similarity_score token_set_ratio json_loads scraped r = Ok s) ->
   match find_best_match token_set_ratio json_loads (Ok rows) scraped thr with
   | Ok (Some m) =>
       product m ∈ rows /\
       calculate_similarity_score token_set_ratio json_loads scraped (product m)
       = Ok (score m) /\
       thr <= score m /\
       (forall r s, r ∈ rows ->
          calculate_similarity_score token_set_ratio json_loads scraped r = Ok s ->
          s <= score m)
   | Ok None =>
       forall r s, r ∈ rows ->
         calculate_similarity_score token_set_ratio json_loads scraped r = Ok s ->
         ~ thr <= s
   | Raise _ => False
   end).
Proof.
  split; [apply find_best_match_raising_row|].
  intros Hall.
  destruct (find_best_match token_set_ratio json_loads (Ok rows) scraped thr)
    as [[m|]|e] eqn:Hb.
  - now apply find_best_match_some.
  - intros r s Hr Hs Hle.
    destruct (find_best_match_all_scored rows scraped thr Hall) as [m Hm]; [eauto|].
    congruence.
  - destruct (find_best_match_returns (Ok rows) scraped thr) as [r Hr].
    congruence.
Qed.

(** C2 (amended): [find_best_match] returns a catalog entry only if that
    entry's composite score is at or above the threshold; when no candidate
    reaches the threshold it returns [None]; and, provided every candidate
    of the catalog is scored without an exception, when at least one
    candidate reaches the threshold it returns a candidate of maximum
    composite score together with that score. *)
Theorem find_best_match_selects_maximum (rows : list db_row)
    (scraped : scraped_product) (thr : Q) :
  (forall m,
     find_best_match token_set_ratio json_loads (Ok rows) scraped thr = Ok (Some m) ->
     product m ∈ rows /\
     calculate_similarity_score token_set_ratio json_loads scraped (product m)
     = Ok (score m) /\
     thr <= score m) /\
  ((forall r, r ∈ rows ->
      exists s, calculate_similarity_score token_set_ratio json_loads scraped r = Ok s) ->
   (exists r s,
      r ∈ rows /\
      calculate_similarity_score token_set_ratio json_loads scraped r = Ok s /\
      thr <= s) ->
   exists m,
     find_best_match token_set_ratio json_loads (Ok rows) scraped thr = Ok (Some m) /\
     product m ∈ rows /\
     calculate_similarity_score token_set_ratio json_loads scraped (product m)
     = Ok (score m) /\
     (forall r s, r ∈ rows ->
        calculate_similarity_score token_set_ratio json_loads scraped r = Ok s ->
        s <= score m)) /\
  ((forall r s, r ∈ rows ->
      calculate_similarity_score token_set_ratio json_loads scraped r = Ok s ->
      ~ thr <= s) ->
   find_best_match token_set_ratio json_loads (Ok rows) scraped thr = Ok None).
Proof.
  split; [|split].
  - intros m Hm. apply find_best_match_some in Hm as (H1 & H2 & H3 & _). auto.
  - intros Hall Hex.
    destruct (find_best_match_all_scored rows scraped thr Hall Hex) as [m Hm].
    exists m. split; [exact Hm|].
    apply find_best_match_some in Hm as (H1 & H2 & _ & H4). auto.
  - apply find_best_match_none_reaches.
Qed.

End MatcherProperties.

Example score_row_5900x :
  exists s, calculate_similarity_score tsr_ref json_ref scraped_ryzen row_5900x = Ok s /\
            s == 100.
Proof. eexists; split; [vm_compute; reflexivity | reflexivity]. Qed.

Example score_row_unnamed :
  exists s, calculate_similarity_score tsr_ref json_ref scraped_ryzen row_unnamed = Ok s /\
            s == 9801 # 995.
Proof. eexists; split; [vm_compute; reflexivity | reflexivity]. Qed.

(** C1, as stated, fails: the first row has malformed specs, the second one
    scores 100, and the search returns [None] instead of the second row. *)
Lemma find_best_match_fault_isolation_counterexample :
  calculate_similarity_score tsr_ref json_ref scraped_ryzen row_truncated_specs
  = Raise JSONDecodeError /\
  (exists s, calculate_similarity_score tsr_ref json_ref scraped_ryzen row_5900x = Ok s /\
             70 <= s) /\
  find_best_match tsr_ref json_ref (Ok [row_truncated_specs; row_5900x]) scraped_ryzen 70
  = Ok None.
Proof.
  split; [vm_compute; reflexivity|]. split; [|vm_compute; reflexivity].
  eexists; split; [vm_compute; reflexivity|]. discriminate.
Qed.

Lemma find_best_match_scoring_fault_witness :
  find_best_match tsr_ref json_ref (Ok [row_truncated_specs; row_5900x]) scraped_ryzen 70
  = Ok None /\
  match find_best_match tsr_ref json_ref (Ok [row_unnamed; row_5900x]) scraped_ryzen 70 with
  | Ok (Some m) =>
      product m ∈ [row_unnamed; row_5900x] /\
      calculate_similarity_score tsr_ref json_ref scraped_ryzen (product m) = Ok (score m) /\
      70 <= score m /\
      (forall r s, r ∈ [row_unnamed; row_5900x] ->
         calculate_similarity_score tsr_ref json_ref scraped_ryzen r = Ok s -> s <= score m)
  | Ok None =>
      forall r s, r ∈ [row_unnamed; row_5900x] ->
        calculate_similarity_score tsr_ref json_ref scraped_ryzen r = Ok s -> ~ 70 <= s
  | Raise _ => False
  end.
Proof.
  split.
  - apply (proj1 (find_best_match_scoring_fault tsr_ref json_ref
                    [row_truncated_specs; row_5900x] scraped_ryzen 70)).
    exists row_truncated_specs, JSONDecodeError. split; [left | vm_compute; reflexivity].
  - apply (proj2 (find_best_match_scoring_fault tsr_ref json_ref
                    [row_unnamed; row_5900x] scraped_ryzen 70)).
    intros r Hr. apply elem_of_cons in Hr as [->|Hr].
    + eexists; vm_compute; reflexivity.
    + apply list_elem_of_singleton in Hr as ->. eexists; vm_compute; reflexivity.
Defined.

(** C2, as stated, fails: the first row reaches the threshold with the score
    100, but the second row cannot be scored and the search returns [None]
    instead of the first row. *)
Lemma find_best_match_maximum_counterexample :
  (exists s, calculate_similarity_score tsr_ref json_ref scraped_ryzen row_5900x = Ok s /\
             70 <= s) /\
  calculate_similarity_score tsr_ref json_ref scraped_ryzen row_not_json_specs
  = Raise JSONDecodeError /\
  find_best_match tsr_ref json_ref (Ok [row_5900x; row_not_json_specs]) scraped_ryzen 70
  = Ok None.
Proof.
  split; [|split; vm_compute; reflexivity].
  eexists; split; [vm_compute; reflexivity|]. discriminate.
Qed.

Lemma find_best_match_selects_maximum_witness :
  (exists m,
     find_best_match tsr_ref json_ref (Ok [row_unnamed; row_5900x]) scraped_ryzen 70
     = Ok (Some m) /\
     product m ∈ [row_unnamed; row_5900x] /\
     calculate_similarity_score tsr_ref json_ref scraped_ryzen (product m) = Ok (score m) /\
     70 <= score m) /\
  (exists m,
     find_best_match tsr_ref json_ref (Ok [row_unnamed; row_5900x]) scraped_ryzen 70
     = Ok (Some m) /\
     product m ∈ [row_unnamed; row_5900x] /\
     calculate_similarity_score tsr_ref json_ref scraped_ryzen (product m) = Ok (score m) /\
     (forall r s, r ∈ [row_unnamed; row_5900x] ->
        calculate_similarity_score tsr_ref json_ref scraped_ryzen r = Ok s -> s <= score m)) /\
  find_best_match tsr_ref json_ref (Ok [row_unnamed]) scraped_ryzen 70 = Ok None.
Proof.
  pose proof (find_best_match_selects_maximum tsr_ref json_ref
                [row_unnamed; row_5900x] scraped_ryzen 70) as (Ha & Hb & _).
  pose proof (find_best_match_selects_maximum tsr_ref json_ref
                [row_unnamed] scraped_ryzen 70) as (_ & _ & Hc).
  split; [|split].
  - eexists. split; [vm_compute; reflexivity|].
    apply Ha. vm_compute. reflexivity.
  - apply Hb.
    + intros r Hr. apply elem_of_cons in Hr as [->|Hr].
      * eexists; vm_compute; reflexivity.
      * apply list_elem_of_singleton in Hr as ->. eexists; vm_compute; reflexivity.
    + exists row_5900x. eexists. split; [right; left|].
      split; [vm_compute; reflexivity|discriminate].
  - apply Hc. intros r s Hr. apply list_elem_of_singleton in Hr as ->.
    intros Hs Hle. vm_compute in Hs. injection Hs as <-.
    apply Hle. vm_compute. reflexivity.
Defined.

Example find_best_match_failed_read :
  find_best_match tsr_ref json_ref (Raise DatabaseError) scraped_ryzen
    similarity_threshold_default = Ok None.
Proof. reflexivity. Qed.

Lemma calculate_similarity_score_weighted_witness :
  (exists db_name db_specs name_similarity spec_similarity price_similarity,
     dict_item row_5900x "name" = Ok db_name /\
     name_similarity
     = tsr_ref (normalize_text (PStr (sp_name scraped_ryzen))) (normalize_text db_name) /\
     (if truthy (dict_get row_5900x "specs")
      then py_json_loads json_ref (dict_get_default row_5900x "specs" (PStr "{}"))
      else Ok (JObject ∅)) = Ok db_specs /\
     calculate_spec_similarity tsr_ref (sp_specs scraped_ryzen) db_specs
     = Ok spec_similarity /\
     calculate_price_similarity (PStr (sp_price scraped_ryzen)) (dict_get row_5900x "price")
     = Ok price_similarity /\
     (29999000000000 # 299990000000)
     == 0.5 * name_similarity + 0.3 * spec_similarity + 0.2 * price_similarity) /\
  total_score 80 50 60 <= total_score 90 50 60 /\
  total_score 80 50 60 <= total_score 80 75 60 /\
  total_score 80 50 60 <= total_score 80 50 100.
Proof.
  pose proof (calculate_similarity_score_weighted tsr_ref json_ref) as (H & Hn & Hs & Hp).
  split; [|split; [|split]].
  - apply (H scraped_ryzen row_5900x). vm_compute. reflexivity.
  - apply Hn. discriminate.
  - apply Hs. discriminate.
  - apply Hp. discriminate.
Defined.

Lemma find_best_match_never_raises_witness :
  find_best_match tsr_ref json_ref (Ok [row_truncated_specs; row_not_json_specs])
    scraped_ryzen similarity_threshold_default = Ok None.
Proof.
  apply (proj2 (proj2 (find_best_match_never_raises tsr_ref json_ref))).
  intros r Hr. exists JSONDecodeError.
  apply elem_of_cons in Hr as [->|Hr]; [vm_compute; reflexivity|].
  apply list_elem_of_singleton in Hr as ->. vm_compute. reflexivity.
Defined.

(** ** Sums and averages of scores *)

Lemma Qlen_cons {A : Type} (x : A) (l : list A) : Qlen (x :: l) == 1 + Qlen l.
Proof.
  unfold Qlen. simpl length. rewrite Nat2Z.inj_succ.
  unfold Qeq, Qplus, inject_Z. simpl. lia.
Qed.

Lemma Qlen_nonneg {A : Type} (l : list A) : 0 <= Qlen l.
Proof. unfold Qlen, Qle, inject_Z. simpl. lia. Qed.

Lemma Qlen_pos {A : Type} (x : A) (l : list A) : 0 < Qlen (x :: l).
Proof. rewrite Qlen_cons. pose proof (Qlen_nonneg l). lra. Qed.

Lemma fold_left_Qplus_acc (l : list Q) (a : Q) : fold_left Qplus l a == a + Qsum l.
Proof.
  unfold Qsum. revert a. induction l as [|x l IH]; intros a; simpl; [ring|].
  rewrite (IH (a + x)), (IH (0 + x)). ring.
Qed.

Lemma Qsum_cons (x : Q) (l : list Q) : Qsum (x :: l) == x + Qsum l.
Proof.
  unfold Qsum at 1. simpl. rewrite fold_left_Qplus_acc. ring.
Qed.

Lemma Qsum_fmap_le {A : Type} (f g : A -> Q) (l : list A) :
  (forall x, x ∈ l -> f x <= g x) -> Qsum (f <$> l) <= Qsum (g <$> l).
Proof.
  induction l as [|x l IH]; intros H; [apply Qle_refl|].
  rewrite !fmap_cons, !Qsum_cons.
  apply Qplus_le_compat; [apply H; left | apply IH; intros y Hy; apply H; now right].
Qed.

Lemma Qsum_fmap_eq {A : Type} (f g : A -> Q) (l : list A) :
  (forall x, x ∈ l -> f x == g x) -> Qsum (f <$> l) == Qsum (g <$> l).
Proof.
  intros H. apply Qle_antisym; apply Qsum_fmap_le; intros x Hx;
    rewrite (H x Hx); apply Qle_refl.
Qed.

Lemma Qsum_bounds (l : list Q) :
  (forall x, x ∈ l -> 0 <= x <= 100) -> 0 <= Qsum l <= 100 * Qlen l.
Proof.
  induction l as [|x l IH]; intros H.
  - split; [apply Qle_refl|]. unfold Qlen. simpl. apply Qle_refl.
  - rewrite Qsum_cons, Qlen_cons.
    destruct (H x) as [H0 H1]; [left|].
    destruct IH as [I0 I1]; [intros y Hy; apply H; now right|]. lra.
Qed.

Lemma average_bounds (l : list Q) :
  (forall x, x ∈ l -> 0 <= x <= 100) ->
  0 <= match l with [] => 0 | _ => Qsum l / Qlen l end <= 100.
Proof.
  intros H. destruct l as [|x l]; [split; discriminate|].
  destruct (Qsum_bounds _ H) as [H0 H1]. pose proof (Qlen_pos x l) as Hp. split.
  - apply Qle_shift_div_l; [exact Hp|]. lra.
  - apply Qle_shift_div_r; [exact Hp | exact H1].
Qed.

Lemma guarded_average_eq (l : list Q) : guarded_average l == Qsum l / Qlen l.
Proof. destruct l; reflexivity. Qed.

Lemma Qdiv_Qlen_le {A : Type} (a b : Q) (l : list A) : a <= b -> a / Qlen l <= b / Qlen l.
Proof.
  intros H. unfold Qdiv. apply Qmult_le_compat_r; [exact H|].
  apply Qinv_le_0_compat, Qlen_nonneg.
Qed.

Lemma fold_left_Qmax_compat (l : list Q) (a b : Q) :
  a == b -> fold_left Qmax l a == fold_left Qmax l b.
Proof.
  revert a b. induction l as [|x l IH]; intros a b Hab; simpl; [exact Hab|].
  apply IH. now rewrite Hab.
Qed.

(** ** Specification similarity *)

Section SpecSimilarity.

Variable token_set_ratio : string -> string -> Q.
Variable json_loads : string -> exc json_value.

(** The contract of the library function: a score between 0 and 100. *)
Hypothesis token_set_ratio_range : forall a b, 0 <= token_set_ratio a b <= 100.

Local Abbreviation bms := (best_match_score token_set_ratio).

(** The loop of [best_match_score] is a running maximum over the accepted
    items. *)
Lemma best_match_score_fold (nk nv : string) (items : list (string * pyval)) (acc : Q) :
  fold_left
    (fun best '(db_key, db_value) =>
       if Qgtb (token_set_ratio nk (normalize_text (PStr db_key))) 80
       then Qmax best (token_set_ratio nv (normalize_text db_value))
       else best) items acc
  = fold_left Qmax
      (value_similarity token_set_ratio nv
       <$> filter (fun item => label_accepted token_set_ratio nk item = true) items)
      acc.
Proof.
  revert acc. induction items as [|[dk dv] items IH]; intros acc; simpl; [reflexivity|].
  rewrite IH. rewrite filter_cons.
  destruct (Qgtb (token_set_ratio nk (normalize_text (PStr dk))) 80) eqn:E.
  - rewrite decide_True by exact E. reflexivity.
  - rewrite decide_False by (unfold label_accepted; simpl; congruence). reflexivity.
Qed.

Lemma best_match_score_attribute_score (nk nv : string) (db : gmap string pyval) :
  bms nk nv (map_to_list db) == attribute_score token_set_ratio nk nv db.
Proof.
  unfold best_match_score, attribute_score, accepted_value_similarities.
  rewrite best_match_score_fold.
  destruct (filter _ (map_to_list db)) as [|item items]; simpl; [reflexivity|].
  apply fold_left_Qmax_compat. apply Q.max_r.
  apply token_set_ratio_range.
Qed.

(** [best_match_score] as a least upper bound. *)
Lemma fold_left_Qmax_le (l : list Q) (acc B : Q) :
  fold_left Qmax l acc <= B <-> acc <= B /\ forall v, v ∈ l -> v <= B.
Proof.
  revert acc. induction l as [|x l IH]; intros acc; simpl.
  - split; [intros H; split; [exact H|]|tauto].
    intros v Hv. now apply elem_of_nil in Hv.
  - rewrite IH, Q.max_lub_iff. split.
    + intros [[Ha Hx] Hl]. split; [exact Ha|].
      intros v Hv. apply elem_of_cons in Hv as [->|Hv]; auto.
    + intros [Ha Hl]. repeat split; [exact Ha | apply Hl; left |].
      intros v Hv. apply Hl. now right.
Qed.

Lemma best_match_score_le (nk nv : string) (items : list (string * pyval)) (B : Q) :
  bms nk nv items <= B <->
  0 <= B /\
  forall item,
    item ∈ items -> label_accepted token_set_ratio nk item = true ->
    value_similarity token_set_ratio nv item <= B.
Proof.
  unfold best_match_score. rewrite best_match_score_fold, fold_left_Qmax_le.
  split; intros [H0 H]; (split; [exact H0|]).
  - intros item Hi Ha. apply H. apply list_elem_of_fmap. exists item.
    split; [reflexivity|]. apply list_elem_of_filter. auto.
  - intros v Hv. apply list_elem_of_fmap in Hv as (item & -> & Hi).
    apply list_elem_of_filter in Hi as [Ha Hi]. auto.
Qed.

Lemma best_match_score_range (nk nv : string) (items : list (string * pyval)) :
  0 <= bms nk nv items <= 100.
Proof.
  split.
  - apply (proj1 (best_match_score_le nk nv items _) (Qle_refl _)).
  - apply best_match_score_le. split; [discriminate|].
    intros item _ _. apply token_set_ratio_range.
Qed.

(** More catalog items can only raise the score of a scraped attribute. *)
Lemma best_match_score_mono (nk nv : string) (items items' : list (string * pyval)) :
  (forall item, item ∈ items -> item ∈ items') ->
  bms nk nv items <= bms nk nv items'.
Proof.
  intros Hsub. apply best_match_score_le.
  split; [apply best_match_score_range|].
  intros item Hi Ha.
  apply (proj2 (proj1 (best_match_score_le nk nv items' _) (Qle_refl _))); auto.
Qed.

Lemma match_scores_range (scraped db : gmap string pyval) (x : Q) :
  x ∈ match_scores token_set_ratio scraped db -> 0 <= x <= 100.
Proof.
  unfold match_scores. intros Hx.
  apply list_elem_of_fmap in Hx as ([k v] & -> & _). apply best_match_score_range.
Qed.

Lemma calculate_spec_similarity_range (scraped : gmap string pyval)
    (db_specs : json_value) (q : Q) :
  calculate_spec_similarity token_set_ratio scraped db_specs = Ok q -> 0 <= q <= 100.
Proof.
  unfold calculate_spec_similarity.
  destruct (_ || _); [intros [= <-]; split; discriminate|].
  destruct db_specs as [db|t]; [|discriminate].
  intros [= <-]. apply average_bounds. intros x. apply match_scores_range.
Qed.

(** C4: the spec similarity is 0 when either map is empty; otherwise it is
    the average over the scraped attributes of the attribute score, the
    maximum value similarity over the catalog labels that are more than 80
    similar to the scraped label, or 0 when there is none; an attribute
    present only in the catalog map never lowers the score. *)
Theorem calculate_spec_similarity_average (scraped db : gmap string pyval) :
  (scraped = ∅ \/ db = ∅ ->
   calculate_spec_similarity token_set_ratio scraped (JObject db) = Ok 0) /\
  (scraped <> ∅ -> db <> ∅ ->
   exists q, calculate_spec_similarity token_set_ratio scraped (JObject db) = Ok q /\
             q == average_attribute_score token_set_ratio scraped db) /\
  (forall k v, db !! k = None ->
   exists q q',
     calculate_spec_similarity token_set_ratio scraped (JObject db) = Ok q /\
     calculate_spec_similarity token_set_ratio scraped (JObject (<[k:=v]> db)) = Ok q' /\
     q <= q').
Proof.
  split; [|split].
  - unfold calculate_spec_similarity. simpl. intros [->| ->].
    + reflexivity.
    + rewrite map_size_empty. simpl. now rewrite orb_true_r.
  - intros Hs Hd. unfold calculate_spec_similarity. simpl.
    apply map_size_non_empty_iff in Hs, Hd.
    apply Nat.eqb_neq in Hs, Hd. rewrite Hs, Hd. simpl.
    eexists; split; [reflexivity|].
    change (guarded_average (match_scores token_set_ratio scraped db)
            == average_attribute_score token_set_ratio scraped db).
    rewrite guarded_average_eq.
    unfold average_attribute_score, match_scores, Qlen. rewrite length_fmap.
    apply Qmult_comp; [|reflexivity].
    apply Qsum_fmap_eq. intros [key value] _.
    apply best_match_score_attribute_score.
  - intros k v Hk.
    destruct (calculate_spec_similarity token_set_ratio scraped (JObject db))
      as [q|e] eqn:Hq;
      [|unfold calculate_spec_similarity in Hq; destruct (_ || _); discriminate].
    destruct (calculate_spec_similarity token_set_ratio scraped (JObject (<[k:=v]> db)))
      as [q'|e] eqn:Hq';
      [|unfold calculate_spec_similarity in Hq'; destruct (_ || _); discriminate].
    exists q, q'. repeat split.
    pose proof (calculate_spec_similarity_range _ _ _ Hq') as [Hq'0 _].
    unfold calculate_spec_similarity in Hq, Hq'. simpl in Hq, Hq'.
    rewrite (map_size_insert_None k v db Hk) in Hq'. simpl in Hq'.
    rewrite orb_false_r in Hq'.
    destruct (size scraped =? 0)%nat eqn:Es; simpl in Hq, Hq'.
    { injection Hq as <-. exact Hq'0. }
    destruct (negb (negb (size db =? 0)%nat)); simpl in Hq.
    { injection Hq as <-. exact Hq'0. }
    injection Hq as <-. injection Hq' as <-.
    change (guarded_average (match_scores token_set_ratio scraped db)
            <= guarded_average (match_scores token_set_ratio scraped (<[k:=v]> db))).
    rewrite !guarded_average_eq.
    unfold match_scores, Qlen. rewrite !length_fmap.
    apply (Qdiv_Qlen_le _ _ (map_to_list scraped)).
    apply Qsum_fmap_le. intros [key value] _.
    apply best_match_score_mono. intros [dk dv] Hi.
    apply elem_of_map_to_list in Hi. apply elem_of_map_to_list.
    rewrite lookup_insert_ne; [exact Hi|]. intros ->. congruence.
Qed.

(** C7: the composite score of a scraped product and a catalog entry lies
    in [0,100]; hence so does the score carried by a match returned by
    [find_best_match]. *)
Theorem calculate_similarity_score_range :
  (forall scraped db t,
     calculate_similarity_score token_set_ratio json_loads scraped db = Ok t ->
     0 <= t <= 100) /\
  (forall fetch scraped thr m,
     find_best_match token_set_ratio json_loads fetch scraped thr = Ok (Some m) ->
     0 <= score m <= 100).
Proof.
  assert (Hscore : forall scraped db t,
    calculate_similarity_score token_set_ratio json_loads scraped db = Ok t ->
    0 <= t <= 100).
  { intros scraped db t H.
    apply calculate_similarity_score_ok in H as (dn & ds & s & p & _ & _ & Hs & Hp & ->).
    apply calculate_spec_similarity_range in Hs.
    destruct (calculate_price_similarity_range (PStr (sp_price scraped))
                (dict_get db "price")) as (p' & Hp' & Hpr).
    rewrite Hp in Hp'. injection Hp' as <-.
    pose proof (token_set_ratio_range (normalize_text (PStr (sp_name scraped)))
                  (normalize_text dn)) as Hn.
    unfold total_score. lra. }
  split; [exact Hscore|].
  intros fetch scraped thr m H. destruct fetch as [rows|e]; [|discriminate].
  apply find_best_match_some in H as (_ & Hm & _). eapply Hscore, Hm.
Qed.

End SpecSimilarity.

Lemma tsr_ref_range (a b : string) : 0 <= tsr_ref a b <= 100.
Proof.
  unfold tsr_ref. destruct (_ || _); [split; discriminate|].
  destruct (String.eqb a b); split; discriminate.
Qed.

Lemma calculate_spec_similarity_average_witness :
  calculate_spec_similarity tsr_ref ∅ (JObject catalog_specs) = Ok 0 /\
  (exists q,
     calculate_spec_similarity tsr_ref (sp_specs scraped_ryzen) (JObject catalog_specs)
     = Ok q /\
     q == average_attribute_score tsr_ref (sp_specs scraped_ryzen) catalog_specs) /\
  (exists q q',
     calculate_spec_similarity tsr_ref (sp_specs scraped_ryzen) (JObject catalog_specs)
     = Ok q /\
     calculate_spec_similarity tsr_ref (sp_specs scraped_ryzen)
       (JObject (<["Threads" := PInt 24]> catalog_specs)) = Ok q' /\
     q <= q').
Proof.
  split; [|split].
  - apply (proj1 (calculate_spec_similarity_average tsr_ref tsr_ref_range ∅ catalog_specs)).
    left. reflexivity.
  - apply (proj1 (proj2 (calculate_spec_similarity_average tsr_ref tsr_ref_range
                           (sp_specs scraped_ryzen) catalog_specs))).
    + intros H. apply (f_equal size) in H. vm_compute in H. discriminate.
    + intros H. apply (f_equal size) in H. vm_compute in H. discriminate.
  - apply (proj2 (proj2 (calculate_spec_similarity_average tsr_ref tsr_ref_range
                           (sp_specs scraped_ryzen) catalog_specs))).
    vm_compute. reflexivity.
Defined.

Example spec_similarity_cores :
  exists q,
    calculate_spec_similarity tsr_ref (sp_specs scraped_ryzen) (JObject catalog_specs) = Ok q /\
    q == 100.
Proof. eexists; split; [vm_compute; reflexivity | reflexivity]. Qed.

Lemma calculate_similarity_score_range_witness :
  (exists t, calculate_similarity_score tsr_ref json_ref scraped_ryzen row_unnamed = Ok t /\
             0 <= t <= 100) /\
  (exists m,
     find_best_match tsr_ref json_ref (Ok [row_unnamed; row_5900x]) scraped_ryzen 70
     = Ok (Some m) /\ 0 <= score m <= 100).
Proof.
  pose proof (calculate_similarity_score_range tsr_ref json_ref tsr_ref_range) as [H1 H2].
  split.
  - eexists. split; [vm_compute; reflexivity|].
    apply (H1 scraped_ryzen row_unnamed). vm_compute. reflexivity.
  - eexists. split; [vm_compute; reflexivity|].
    apply (H2 (Ok [row_unnamed; row_5900x]) scraped_ryzen 70). vm_compute. reflexivity.
Defined.

Section ExtractorProperties.

Variable re_search : string -> string -> list re_flag -> option (list string).

(** The contract of the regular-expression engine used here: a match carries
    one captured text per capturing group of the pattern. *)
Hypothesis re_search_groups :
  forall pattern text groups,
    re_search pattern text [IGNORECASE] = Some groups ->
    length groups = count_groups pattern.

Lemma laptop_apply_patterns_other (patterns : list (string * string))
    (description : string) (specs : gmap string string) (k : string) :
  k ∉ patterns.*2 ->
  LaptopScraper.apply_patterns re_search patterns description specs !! k = specs !! k.
Proof.
  revert specs. induction patterns as [|[p key] rest IH]; intros specs Hk; [reflexivity|].
  simpl in *. apply not_elem_of_cons in Hk as [Hne Hk].
  destruct (re_search p description [IGNORECASE]); rewrite IH by exact Hk; [|reflexivity].
  now apply lookup_insert_ne.
Qed.

Lemma laptop_apply_patterns_rule (patterns : list (string * string))
    (description : string) (specs : gmap string string) (p k : string) :
  NoDup patterns.*2 -> (p, k) ∈ patterns ->
  LaptopScraper.apply_patterns re_search patterns description specs !! k
  = match re_search p description [IGNORECASE] with
    | Some groups => Some (String.concat " " groups)
    | None => specs !! k
    end.
Proof.
  revert specs. induction patterns as [|[p0 k0] rest IH]; intros specs Hnd Hin.
  - now apply elem_of_nil in Hin.
  - simpl in Hnd. apply NoDup_cons in Hnd as [Hk0 Hnd].
    apply elem_of_cons in Hin as [[= -> ->]|Hin]; simpl.
    + destruct (re_search p0 description [IGNORECASE]);
        rewrite laptop_apply_patterns_other by exact Hk0; [|reflexivity].
      apply lookup_insert_eq.
    + assert (Hne : k0 <> k).
      { intros ->. apply Hk0. apply list_elem_of_fmap. now exists (p, k). }
      destruct (re_search p0 description [IGNORECASE]); rewrite (IH _ Hnd Hin);
        [|reflexivity].
      destruct (re_search p description [IGNORECASE]); [reflexivity|].
      now apply lookup_insert_ne.
Qed.

Lemma cpu_apply_patterns_rules (patterns : list (string * string))
    (description : string) (specs : gmap string string) :
  (forall p k, (p, k) ∈ patterns -> count_groups p = 1%nat) ->
  exists specs',
    AmazonCPUScraper.apply_patterns re_search patterns description specs = Ok specs' /\
    (forall k, k ∉ patterns.*2 -> specs' !! k = specs !! k) /\
    (NoDup patterns.*2 ->
     forall p k, (p, k) ∈ patterns ->
       specs' !! k
       = match re_search p description [IGNORECASE] with
         | Some groups => Some (String.concat " " groups)
         | None => specs !! k
         end).
Proof.
  revert specs. induction patterns as [|[p0 k0] rest IH]; intros specs Hone.
  - exists specs. split; [reflexivity|]. split; [reflexivity|].
    intros _ p k Hin. now apply elem_of_nil in Hin.
  - assert (Hrest : forall p k, (p, k) ∈ rest -> count_groups p = 1%nat)
      by (intros p k Hin; apply (Hone p k); now right).
    simpl.
    destruct (re_search p0 description [IGNORECASE]) as [groups|] eqn:Ere.
    + pose proof (re_search_groups _ _ _ Ere) as Hlen.
      rewrite (Hone p0 k0) in Hlen by left.
      destruct groups as [|g [|g' groups]]; try discriminate. simpl.
      destruct (IH (<[k0 := g]> specs) Hrest) as (specs' & -> & Hother & Hrule).
      exists specs'. split; [reflexivity|]. split.
      * intros k Hk. apply not_elem_of_cons in Hk as [Hne Hk].
        rewrite (Hother k Hk). now apply lookup_insert_ne.
      * intros Hnd p k Hin. apply NoDup_cons in Hnd as [Hk0 Hnd].
        apply elem_of_cons in Hin as [[= -> ->]|Hin].
        -- rewrite (Hother k0 Hk0), Ere. simpl. apply lookup_insert_eq.
        -- rewrite (Hrule Hnd p k Hin).
           destruct (re_search p description [IGNORECASE]); [reflexivity|].
           apply lookup_insert_ne. intros ->. apply Hk0.
           apply list_elem_of_fmap. now exists (p, k).
    + destruct (IH specs Hrest) as (specs' & -> & Hother & Hrule).
      exists specs'. split; [reflexivity|]. split.
      * intros k Hk. apply not_elem_of_cons in Hk as [Hne Hk]. exact (Hother k Hk).
      * intros Hnd p k Hin. apply NoDup_cons in Hnd as [Hk0 Hnd].
        apply elem_of_cons in Hin as [[= -> ->]|Hin].
        -- now rewrite (Hother k0 Hk0), Ere.
        -- exact (Hrule Hnd p k Hin).
Qed.

(** C6: for every description and every rule of the rule table, if the
    rule's pattern matches (case-insensitively, first occurrence) the result
    map holds the captured groups joined with one space under the rule's
    label, and if it does not match the label is absent; no other label
    appears.  This holds for the CPU extractor and for the laptop extractor. *)
Theorem extract_specifications_rules (description : string) :
  (exists specs,
     AmazonCPUScraper.extract_specifications re_search description = Ok specs /\
     (forall pattern key, (pattern, key) ∈ AmazonCPUScraper.spec_patterns ->
        (forall groups, re_search pattern description [IGNORECASE] = Some groups ->
           specs !! key = Some (String.concat " " groups)) /\
        (re_search pattern description [IGNORECASE] = None -> specs !! key = None)) /\
     (forall key, key ∉ AmazonCPUScraper.spec_patterns.*2 -> specs !! key = None)) /\
  (forall pattern key, (pattern, key) ∈ LaptopScraper.spec_patterns ->
     (forall groups, re_search pattern description [IGNORECASE] = Some groups ->
        LaptopScraper.extract_specifications re_search description !! key
        = Some (String.concat " " groups)) /\
     (re_search pattern description [IGNORECASE] = None ->
      LaptopScraper.extract_specifications re_search description !! key = None)) /\
  (forall key, key ∉ LaptopScraper.spec_patterns.*2 ->
     LaptopScraper.extract_specifications re_search description !! key = None).
Proof.
  split; [|split].
  - destruct (cpu_apply_patterns_rules AmazonCPUScraper.spec_patterns description ∅)
      as (specs & Hs & Hother & Hrule).
    { intros p k Hin. unfold AmazonCPUScraper.spec_patterns in Hin.
      repeat (apply elem_of_cons in Hin as [[= -> ->]|Hin]; [reflexivity|]).
      now apply elem_of_nil in Hin. }
    exists specs. split; [exact Hs|]. split.
    + intros p k Hin.
      assert (Hnd : NoDup AmazonCPUScraper.spec_patterns.*2)
        by (apply (bool_decide_unpack _); vm_compute; reflexivity).
      rewrite (Hrule Hnd p k Hin). split; [now intros groups ->|now intros ->].
    + intros k Hk. now rewrite (Hother k Hk).
  - intros p k Hin. unfold LaptopScraper.extract_specifications.
    rewrite (laptop_apply_patterns_rule _ description ∅ p k);
      [|apply (bool_decide_unpack _); vm_compute; reflexivity | exact Hin].
    split; [now intros groups ->|now intros ->].
  - intros k Hk. unfold LaptopScraper.extract_specifications.
    now rewrite laptop_apply_patterns_other.
Qed.

End ExtractorProperties.

Lemma re_ref_groups (pattern text : string) (groups : list string) :
  re_ref pattern text [IGNORECASE] = Some groups ->
  length groups = count_groups pattern.
Proof.
  unfold re_ref.
  destruct (find _ re_table) as [[[t p] gs]|] eqn:Ef; [|discriminate].
  intros [= <-]. apply find_some in Ef as [Hin Heq]. simpl in Heq.
  apply andb_true_iff in Heq as [_ Hp]. apply String.eqb_eq in Hp as <-.
  assert (Hall : Forall (fun e => length (snd e) = count_groups (snd (fst e))) re_table)
    by (repeat constructor).
  rewrite Forall_forall in Hall. apply (Hall (t, p, gs)). now apply list_elem_of_In.
Qed.

Lemma extract_specifications_rules_witness :
  (exists specs,
     AmazonCPUScraper.extract_specifications re_ref cpu_text = Ok specs /\
     specs !! "Cores" = Some "12" /\ specs !! "Threads" = None) /\
  LaptopScraper.extract_specifications re_ref laptop_text !! "Processor" = Some "Intel i7" /\
  LaptopScraper.extract_specifications re_ref laptop_text !! "RAM" = None.
Proof.
  split; [|split].
  - destruct (extract_specifications_rules re_ref re_ref_groups cpu_text)
      as ((specs & Hs & Hr & _) & _).
    exists specs. split; [exact Hs|]. split.
    + apply (proj1 (Hr "(\d+)\s*Cores?" "Cores" ltac:(left)) ["12"]).
      vm_compute. reflexivity.
    + apply (proj2 (Hr "(\d+)\s*Threads?" "Threads" ltac:(right; left))).
      vm_compute. reflexivity.
  - destruct (extract_specifications_rules re_ref re_ref_groups laptop_text)
      as (_ & Hr & _).
    apply (proj1 (Hr _ "Processor" ltac:(do 3 right; left)) ["Intel"; "i7"]).
    vm_compute. reflexivity.
  - destruct (extract_specifications_rules re_ref re_ref_groups laptop_text)
      as (_ & Hr & _).
    apply (proj2 (Hr _ "RAM" ltac:(left))).
    vm_compute. reflexivity.
Defined.

(** The specs of the sample listing are those extracted from its description. *)
Example scraped_ryzen_specs :
  exists specs,
    AmazonCPUScraper.extract_specifications re_ref (sp_description scraped_ryzen)
    = Ok specs /\
    sp_specs scraped_ryzen = PStr <$> specs.
Proof. eexists. split; vm_compute; reflexivity. Qed.

(** The extractor of [laptops.py] behaves differently: it stops at the first
    rule that matches, so a later rule whose pattern matches leaves no entry. *)
Example laptops_py_stops_at_first_match :
  LaptopDbScraper.extract_specifications re_ref laptop_text = Ok {[ "RAM" := "16" ]} /\
  re_ref "(Intel|AMD)\s+(Core|Ryzen)\s*(\w+)" laptop_text [IGNORECASE]
  = Some ["Intel"; "Core"; "i7"].
Proof. split; vm_compute; reflexivity. Qed.

(** ** Further properties of the matcher *)

Lemma str_lower_idempotent (s : string) : str_lower (str_lower s) = str_lower s.
Proof.
  induction s as [|c s IH]; simpl; [reflexivity|]. rewrite IH. f_equal.
  unfold lower_char at 1. now rewrite lower_char_not_upper.
Qed.

Lemma str_lower_empty (s : string) : str_lower s = EmptyString <-> s = EmptyString.
Proof. destruct s; simpl; split; congruence. Qed.





(** X3: [calculate_price_similarity] returns for all inputs, and its result
    lies between 0 and 100. *)
Theorem calculate_price_similarity_bounded (a b : pyval) :
  exists q, calculate_price_similarity a b = Ok q /\ 0 <= q <= 100.
Proof. apply calculate_price_similarity_range. Qed.



Lemma Qsum_const {A : Type} (c : Q) (l : list A) :
  Qsum ((fun _ => c) <$> l) == c * Qlen l.
Proof.
  induction l as [|x l IH].
  - unfold Qsum, Qlen. simpl. ring.
  - rewrite fmap_cons, Qsum_cons, Qlen_cons, IH. ring.
Qed.

Lemma guarded_average_const {A : Type} (f : A -> Q) (c : Q) (l : list A) :
  l <> [] -> (forall x, x ∈ l -> f x == c) -> guarded_average (f <$> l) == c.
Proof.
  intros Hne Hc. rewrite guarded_average_eq.
  rewrite (Qsum_fmap_eq f (fun _ => c) l Hc), Qsum_const.
  unfold Qlen at 2. rewrite length_fmap. fold (Qlen l).
  destruct l as [|x l]; [congruence|].
  pose proof (Qlen_pos x l) as Hp. field. lra.
Qed.

Section SpecSimilarityExtras.

Variable token_set_ratio : string -> string -> Q.
Hypothesis token_set_ratio_range : forall a b, 0 <= token_set_ratio a b <= 100.

Lemma best_match_score_none_accepted (nk nv : string) (items : list (string * pyval)) :
  (forall item, item ∈ items -> label_accepted token_set_ratio nk item = false) ->
  best_match_score token_set_ratio nk nv items = 0.
Proof.
  unfold best_match_score. generalize 0 as acc.
  induction items as [|[dk dv] items IH]; intros acc H; simpl; [reflexivity|].
  rewrite IH by (intros item Hi; apply H; now right).
  specialize (H (dk, dv) ltac:(left)). unfold label_accepted in H. simpl in H.
  now rewrite H.
Qed.

(** X5: when no catalog label is more than 80 similar to any scraped label,
    the spec similarity is 0, whatever the values are. *)
Theorem calculate_spec_similarity_no_label (scraped db : gmap string pyval) :
  (forall k v dk dv,
     scraped !! k = Some v -> db !! dk = Some dv ->
     token_set_ratio (normalize_text (PStr k)) (normalize_text (PStr dk)) <= 80) ->
  exists q, calculate_spec_similarity token_set_ratio scraped (JObject db) = Ok q /\ q == 0.
Proof.
  intros H. unfold calculate_spec_similarity.
  destruct (_ || _); [eexists; split; reflexivity|].
  eexists; split; [reflexivity|].
  change (guarded_average (match_scores token_set_ratio scraped db) == 0).
  unfold match_scores.
  destruct (map_to_list scraped) as [|kv l] eqn:El; [reflexivity|].
  rewrite <- El. apply guarded_average_const; [rewrite El; discriminate|].
  intros [k v] Hkv. apply elem_of_map_to_list in Hkv.
  rewrite best_match_score_none_accepted; [reflexivity|].
  intros [dk dv] Hd. apply elem_of_map_to_list in Hd.
  unfold label_accepted. simpl. apply Qgtb_false. eapply H; eassumption.
Qed.

(** X6: when every scraped attribute occurs in the catalog map with the same
    label and the same value, and these labels and values are 100 similar
    to themselves, the spec similarity is 100. *)
Theorem calculate_spec_similarity_identical (scraped db : gmap string pyval) :
  scraped <> ∅ ->
  (forall k v, scraped !! k = Some v ->
     db !! k = Some v /\
     token_set_ratio (normalize_text (PStr k)) (normalize_text (PStr k)) == 100 /\
     token_set_ratio (normalize_text v) (normalize_text v) == 100) ->
  exists q, calculate_spec_similarity token_set_ratio scraped (JObject db) = Ok q /\ q == 100.
Proof.
  intros Hne H. unfold calculate_spec_similarity.
  assert (Hs : (size scraped =? 0)%nat = false)
    by (apply Nat.eqb_neq; now apply map_size_non_empty_iff).
  assert (Hd : (size db =? 0)%nat = false).
  { apply Nat.eqb_neq, map_size_non_empty_iff. intros ->.
    destruct (map_choose scraped Hne) as (k & v & Hkv).
    destruct (H k v Hkv) as [Hdb _]. now rewrite lookup_empty in Hdb. }
  simpl. rewrite Hs, Hd. simpl.
  eexists; split; [reflexivity|].
  change (guarded_average (match_scores token_set_ratio scraped db) == 100).
  unfold match_scores. apply guarded_average_const.
  { intros E. apply map_to_list_empty_iff in E. contradiction. }
  intros [k v] Hkv. apply elem_of_map_to_list in Hkv.
  destruct (H k v Hkv) as (Hdb & Hk & Hv).
  apply Qle_antisym;
    [apply (best_match_score_range token_set_ratio token_set_ratio_range)|].
  pose proof (proj1 (best_match_score_le token_set_ratio
                       (normalize_text (PStr k)) (normalize_text v) (map_to_list db) _)
                (Qle_refl _)) as [_ Hle].
  rewrite <- Hv.
  apply (Hle (k, v)); [now apply elem_of_map_to_list|].
  unfold label_accepted. simpl. apply Qgtb_true. rewrite Hk. reflexivity.
Qed.

(** X7: on a decoded JSON object [calculate_spec_similarity] never raises and
    returns a value between 0 and 100; on a JSON value that is not an object
    it raises [AttributeError] when that value is truthy and there are
    scraped attributes, and returns 0 otherwise. *)
Theorem calculate_spec_similarity_outcomes (scraped : gmap string pyval) :
  (forall db, exists q,
     calculate_spec_similarity token_set_ratio scraped (JObject db) = Ok q /\
     0 <= q <= 100) /\
  (scraped <> ∅ ->
   calculate_spec_similarity token_set_ratio scraped (JOther true) = Raise AttributeError) /\
  (forall t, scraped = ∅ \/ t = false ->
   calculate_spec_similarity token_set_ratio scraped (JOther t) = Ok 0).
Proof.
  split; [|split].
  - intros db.
    destruct (calculate_spec_similarity token_set_ratio scraped (JObject db)) as [q|e] eqn:E.
    + exists q. split; [reflexivity|].
      exact (calculate_spec_similarity_range token_set_ratio token_set_ratio_range _ _ _ E).
    + unfold calculate_spec_similarity in E. destruct (_ || _); discriminate.
  - intros Hne. unfold calculate_spec_similarity. simpl.
    apply map_size_non_empty_iff, Nat.eqb_neq in Hne. now rewrite Hne.
  - intros t [->| ->]; unfold calculate_spec_similarity; simpl.
    + reflexivity.
    + now rewrite orb_true_r.
Qed.

End SpecSimilarityExtras.

Lemma calculate_spec_similarity_no_label_witness :
  exists q,
    calculate_spec_similarity tsr_ref {[ "Cores" := PStr "12" ]}
      (JObject {[ "Socket" := PStr "AM4" ]}) = Ok q /\ q == 0.
Proof.
  apply (calculate_spec_similarity_no_label tsr_ref).
  intros k v dk dv Hk Hd.
  apply lookup_singleton_Some in Hk as [<- <-].
  apply lookup_singleton_Some in Hd as [<- <-].
  vm_compute. discriminate.
Defined.

Lemma calculate_spec_similarity_identical_witness :
  exists q,
    calculate_spec_similarity tsr_ref {[ "Cores" := PStr "12" ]}
      (JObject {[ "Cores" := PStr "12"; "Socket" := PStr "AM4" ]}) = Ok q /\ q == 100.
Proof.
  apply (calculate_spec_similarity_identical tsr_ref tsr_ref_range).
  - intros E. apply (f_equal size) in E. vm_compute in E. discriminate.
  - intros k v Hk. apply lookup_singleton_Some in Hk as [<- <-].
    split; [vm_compute; reflexivity|]. split; vm_compute; reflexivity.
Defined.

Lemma calculate_spec_similarity_outcomes_witness :
  calculate_spec_similarity tsr_ref {[ "Cores" := PStr "12" ]} (JOther true)
  = Raise AttributeError /\
  calculate_spec_similarity tsr_ref ∅ (JOther true) = Ok 0.
Proof.
  split.
  - apply (proj1 (proj2 (calculate_spec_similarity_outcomes tsr_ref tsr_ref_range
                           {[ "Cores" := PStr "12" ]}))).
    intros E. apply (f_equal size) in E. vm_compute in E. discriminate.
  - apply (proj2 (proj2 (calculate_spec_similarity_outcomes tsr_ref tsr_ref_range ∅))).
    left. reflexivity.
Defined.

Section ScoreExtras.

Variable token_set_ratio : string -> string -> Q.
Variable json_loads : string -> exc json_value.

(** X8: a row whose [specs] column is absent, [None] or empty is scored on
    name and price only: the decoder is not called and the score is
    0.5 name + 0.2 price. *)
Theorem calculate_similarity_score_without_specs (scraped : scraped_product)
    (db : db_row) (db_name : pyval) :
  db !! "name" = Some db_name ->
  truthy (dict_get db "specs") = false ->
  exists t p,
    calculate_similarity_score token_set_ratio json_loads scraped db = Ok t /\
    calculate_price_similarity (PStr (sp_price scraped)) (dict_get db "price") = Ok p /\
    t == 0.5 * token_set_ratio (normalize_text (PStr (sp_name scraped)))
                (normalize_text db_name)
         + 0.2 * p.
Proof.
  intros Hn Hs.
  destruct (calculate_price_similarity_range (PStr (sp_price scraped))
              (dict_get db "price")) as (p & Hp & _).
  unfold calculate_similarity_score, dict_item. rewrite Hn, Hs. simpl.
  assert (Hz : calculate_spec_similarity token_set_ratio (sp_specs scraped) (JObject ∅)
               = Ok 0).
  { unfold calculate_spec_similarity. simpl. rewrite map_size_empty. simpl.
    now rewrite orb_true_r. }
  rewrite Hz, Hp. simpl. eexists. exists p. split; [reflexivity|]. split; [reflexivity|].
  unfold total_score. ring.
Qed.

(** X9: what scoring raises.  A row without a [name] column raises
    [KeyError]; a row with a name whose [specs] is a truthy value that is not
    text raises [TypeError]; a row with a name whose non-empty [specs] text
    is rejected by the decoder raises the decoder's exception. *)
Theorem calculate_similarity_score_raises (scraped : scraped_product) (db : db_row) :
  (db !! "name" = None ->
   calculate_similarity_score token_set_ratio json_loads scraped db = Raise KeyError) /\
  (forall db_name v,
     db !! "name" = Some db_name -> db !! "specs" = Some v ->
     truthy v = true -> (forall s, v <> PStr s) ->
     calculate_similarity_score token_set_ratio json_loads scraped db = Raise TypeError) /\
  (forall db_name s e,
     db !! "name" = Some db_name -> db !! "specs" = Some (PStr s) ->
     s <> EmptyString -> json_loads s = Raise e ->
     calculate_similarity_score token_set_ratio json_loads scraped db = Raise e).
Proof.
  unfold calculate_similarity_score, dict_item, dict_get, dict_get_default.
  split; [|split].
  - now intros ->.
  - intros db_name v -> -> Ht Hv. simpl. rewrite Ht.
    destruct v; simpl; try reflexivity. now destruct (Hv s).
  - intros db_name s e -> -> Hs He. simpl.
    destruct s as [|c s]; [congruence|]. simpl. now rewrite He.
Qed.

Hypothesis token_set_ratio_range : forall a b, 0 <= token_set_ratio a b <= 100.



End ScoreExtras.

Lemma calculate_similarity_score_without_specs_witness :
  exists t p,
    calculate_similarity_score tsr_ref json_ref scraped_ryzen row_unnamed = Ok t /\
    calculate_price_similarity (PStr (sp_price scraped_ryzen)) (dict_get row_unnamed "price")
    = Ok p /\
    t == 0.5 * tsr_ref (normalize_text (PStr (sp_name scraped_ryzen))) (normalize_text PNone)
         + 0.2 * p.
Proof.
  apply (calculate_similarity_score_without_specs tsr_ref json_ref scraped_ryzen
           row_unnamed PNone); vm_compute; reflexivity.
Defined.

Lemma calculate_similarity_score_raises_witness :
  calculate_similarity_score tsr_ref json_ref scraped_ryzen {[ "price" := PStr "1" ]}
  = Raise KeyError /\
  calculate_similarity_score tsr_ref json_ref scraped_ryzen
    {[ "name" := PStr "x"; "specs" := PInt 5 ]} = Raise TypeError /\
  calculate_similarity_score tsr_ref json_ref scraped_ryzen row_truncated_specs
  = Raise JSONDecodeError.
Proof.
  split; [|split].
  - apply (proj1 (calculate_similarity_score_raises tsr_ref json_ref scraped_ryzen _)).
    vm_compute. reflexivity.
  - apply (proj1 (proj2 (calculate_similarity_score_raises tsr_ref json_ref scraped_ryzen _))
             (PStr "x") (PInt 5)); try (vm_compute; reflexivity).
    intros s. discriminate.
  - apply (proj2 (proj2 (calculate_similarity_score_raises tsr_ref json_ref scraped_ryzen _))
             (PStr "AMD Ryzen 7 5800X") "{" JSONDecodeError); try (vm_compute; reflexivity).
    discriminate.
Defined.



(** ** Ties and thresholds *)

(** The head of the sorted list is the first element of greatest score. *)
Lemma sort_desc_head_first (l : list match_entry) (b : match_entry)
    (rest : list match_entry) :
  sort_desc l = b :: rest ->
  exists pre post : list match_entry,
    l = (pre ++ b :: post)%list /\
    (forall x, x ∈ pre -> score x < score b) /\
    (forall x, x ∈ post -> score x <= score b).
Proof.
  revert b rest. induction l as [|x l IH]; intros b rest; simpl; [discriminate|].
  destruct (insert_desc_head x (sort_desc l)) as [rest' ->].
  pose proof (sort_desc_head l) as Hh.
  destruct (sort_desc l) as [|y r] eqn:Es.
  - intros [= <- _]. subst l. exists [], []. split; [reflexivity|].
    split; intros z Hz; now apply elem_of_nil in Hz.
  - destruct Hh as [_ Hmax].
    destruct (Qgtb (score y) (score x)) eqn:E; intros [= <- _].
    + apply Qgtb_true in E.
      destruct (IH y r eq_refl) as (pre & post & -> & Hpre & Hpost).
      exists (x :: pre), post. split; [reflexivity|]. split; [|exact Hpost].
      intros z Hz. apply elem_of_cons in Hz as [->|Hz]; auto.
    + apply Qgtb_false in E. exists [], l. split; [reflexivity|]. split.
      * intros z Hz. now apply elem_of_nil in Hz.
      * intros z Hz. eapply Qle_trans; [apply Hmax, Hz | exact E].
Qed.

Section TieExtras.

Variable token_set_ratio : string -> string -> Q.
Variable json_loads : string -> exc json_value.

Local Abbreviation score_of := (calculate_similarity_score token_set_ratio json_loads).

(** The loop appends, in catalog order, the rows that reach the threshold. *)
Lemma collect_matches_omap (scraped : scraped_product) (thr : Q)
    (rows : list db_row) (acc ms : list match_entry) :
  collect_matches token_set_ratio json_loads scraped thr rows acc = Ok ms ->
  ms = (acc ++ omap (fun r =>
                      match score_of scraped r with
                      | Ok s => if Qle_bool thr s
                                then Some {| product := r; score := s |} else None
                      | Raise _ => None
                      end) rows)%list.
Proof.
  revert acc. induction rows as [|r rows IH]; simpl; intros acc H.
  - injection H as <-. now rewrite app_nil_r.
  - destruct (score_of scraped r) as [s|e]; simpl in H; [|discriminate].
    apply IH in H as ->. destruct (Qle_bool thr s); [|reflexivity].
    now rewrite <- app_assoc.
Qed.

Lemma omap_cons_eq {A B : Type} (f : A -> option B) (x : A) (l : list A) :
  omap f (x :: l) = match f x with Some y => y :: omap f l | None => omap f l end.
Proof. reflexivity. Qed.

Lemma omap_split {A B : Type} (f : A -> option B) (l : list A) (pre post : list B) (b : B) :
  omap f l = (pre ++ b :: post)%list ->
  exists (lpre : list A) (a : A) (lpost : list A),
    l = (lpre ++ a :: lpost)%list /\ f a = Some b /\ omap f lpre = pre /\ omap f lpost = post.
Proof.
  revert pre. induction l as [|x l IH]; intros pre H.
  - now destruct pre.
  - rewrite omap_cons_eq in H. destruct (f x) as [y|] eqn:Ex.
    + destruct pre as [|p pre]; simpl in H; injection H as -> H.
      * exists [], x, l. auto.
      * destruct (IH pre H) as (lpre & a & lpost & -> & Ha & <- & <-).
        exists (x :: lpre), a, lpost. rewrite omap_cons_eq, Ex. auto.
    + destruct (IH pre H) as (lpre & a & lpost & -> & Ha & <- & <-).
      exists (x :: lpre), a, lpost. rewrite omap_cons_eq, Ex. auto.
Qed.

Lemma find_best_match_position (rows : list db_row) (scraped : scraped_product)
    (thr : Q) (m : match_entry) :
  find_best_match token_set_ratio json_loads (Ok rows) scraped thr = Ok (Some m) ->
  exists before after : list db_row,
    rows = (before ++ product m :: after)%list /\
    calculate_similarity_score token_set_ratio json_loads scraped (product m)
    = Ok (score m) /\
    (forall r s, r ∈ before ->
       calculate_similarity_score token_set_ratio json_loads scraped r = Ok s ->
       s < score m) /\
    (forall r s, r ∈ after ->
       calculate_similarity_score token_set_ratio json_loads scraped r = Ok s ->
       s <= score m).
Proof.
  intros H. pose proof (find_best_match_some _ _ _ _ _ _ H) as (_ & Hm & Hthr & Hmax).
  unfold find_best_match in H. simpl in H.
  destruct (collect_matches token_set_ratio json_loads scraped thr rows []) as [ms|e] eqn:Hc;
    simpl in H; [|discriminate].
  apply collect_matches_omap in Hc. simpl in Hc.
  destruct (sort_desc ms) as [|b rest] eqn:Es; [discriminate|]. injection H as ->.
  apply sort_desc_head_first in Es as (pre & post & Hms & Hpre & _).
  rewrite Hms in Hc. symmetry in Hc.
  apply omap_split in Hc as (before & a & after & -> & Ha & Hbefore & _).
  assert (Hpa : a = product m).
  { destruct (score_of scraped a) as [s|e]; [|discriminate].
    destruct (Qle_bool thr s); [|discriminate]. now injection Ha as <-. }
  subst a. exists before, after. split; [reflexivity|]. split; [exact Hm|]. split.
  - intros r s Hr Hs. destruct (Qle_bool thr s) eqn:E.
    + apply (Hpre {| product := r; score := s |}).
      rewrite <- Hbefore. apply list_elem_of_omap.
      exists r. split; [exact Hr|]. now rewrite Hs, E.
    + apply Qlt_le_trans with thr; [|exact Hthr].
      apply Qnot_le_lt. intros Hle. apply Qle_bool_iff in Hle. congruence.
  - intros r s Hr Hs. apply (Hmax r s); [|exact Hs].
    apply elem_of_app. right. now right.
Qed.

(** X12: ties are broken by catalog order: the row that is returned is
    preceded in the catalog only by rows of strictly smaller score, and no
    row after it has a greater score. *)
Theorem find_best_match_first_of_ties (rows : list db_row) (scraped : scraped_product)
    (thr : Q) (m : match_entry) :
  find_best_match token_set_ratio json_loads (Ok rows) scraped thr = Ok (Some m) ->
  exists before after : list db_row,
    rows = (before ++ product m :: after)%list /\
    calculate_similarity_score token_set_ratio json_loads scraped (product m)
    = Ok (score m) /\
    (forall r s, r ∈ before ->
       calculate_similarity_score token_set_ratio json_loads scraped r = Ok s ->
       s < score m) /\
    (forall r s, r ∈ after ->
       calculate_similarity_score token_set_ratio json_loads scraped r = Ok s ->
       s <= score m).
Proof. apply find_best_match_position. Qed.

(** Two decompositions of a list around a first maximum coincide. *)
Lemma first_maximum_unique {A : Type} (P Q' : A -> A -> Prop) (l1 l2 r1 r2 : list A)
    (a b : A) :
  (l1 ++ a :: r1 = l2 ++ b :: r2)%list ->
  (forall x, x ∈ l1 -> P x a) -> (forall x, x ∈ l2 -> Q' x b) ->
  ~ P b a -> ~ Q' a b ->
  l1 = l2 /\ a = b /\ r1 = r2.
Proof.
  revert l2. induction l1 as [|x l1 IH]; intros l2 H H1 H2 Hba Hab.
  - destruct l2 as [|y l2]; simpl in H.
    + injection H as -> ->. auto.
    + injection H as -> _. exfalso. apply Hab, H2. left.
  - destruct l2 as [|y l2]; simpl in H.
    + injection H as <- _. exfalso. apply Hba, H1. left.
    + injection H as <- H.
      destruct (IH l2 H) as (-> & -> & ->); auto.
      * intros z Hz. apply H1. now right.
      * intros z Hz. apply H2. now right.
Qed.

(** X13: the threshold only decides whether the best candidate is returned,
    not which one: a match returned at some threshold is returned at every
    threshold that its score reaches. *)
Theorem find_best_match_threshold_independent (rows : list db_row)
    (scraped : scraped_product) (thr thr' : Q) (m : match_entry) :
  find_best_match token_set_ratio json_loads (Ok rows) scraped thr = Ok (Some m) ->
  thr' <= score m ->
  find_best_match token_set_ratio json_loads (Ok rows) scraped thr' = Ok (Some m).
Proof.
  intros H Hthr'.
  pose proof (find_best_match_position _ _ _ _ H)
    as (before & after & Hrows & Hm & Hbefore & Hafter).
  assert (Hall : forall r, r ∈ rows -> exists s, score_of scraped r = Ok s).
  { unfold find_best_match in H. simpl in H.
    destruct (collect_matches token_set_ratio json_loads scraped thr rows [])
      as [ms|e] eqn:Hc; [|discriminate].
    now apply collect_matches_ok in Hc as [Hall _]. }
  destruct (find_best_match_all_scored token_set_ratio json_loads rows scraped thr' Hall)
    as [m' Hm'].
  { exists (product m), (score m). split; [|split; assumption].
    rewrite Hrows. apply elem_of_app. right. left. }
  rewrite Hm'. do 2 f_equal.
  pose proof (find_best_match_position _ _ _ _ Hm')
    as (before' & after' & Hrows' & Hms' & Hbefore' & Hafter').
  pose proof (find_best_match_some _ _ _ _ _ _ H) as (_ & _ & _ & Hmax).
  pose proof (find_best_match_some _ _ _ _ _ _ Hm') as (Hin' & _ & _ & Hmax').
  rewrite Hrows in Hrows'.
  apply (first_maximum_unique
           (fun x y => forall s t, score_of scraped x = Ok s -> score_of scraped y = Ok t -> s < t)
           (fun x y => forall s t, score_of scraped x = Ok s -> score_of scraped y = Ok t -> s < t))
    in Hrows' as (_ & Hp & _).
  - destruct m as [pm sm], m' as [pm' sm']. simpl in *. subst pm'.
    rewrite Hm in Hms'. now injection Hms' as ->.
  - intros x Hx s t Hs Ht. rewrite Hm in Ht. injection Ht as <-. eauto.
  - intros x Hx s t Hs Ht. rewrite Hms' in Ht. injection Ht as <-. eauto.
  - intros Hlt. specialize (Hlt _ _ Hms' Hm).
    assert (score m <= score m') by (apply (Hmax' (product m)); [|exact Hm];
      rewrite Hrows; apply elem_of_app; right; left).
    lra.
  - intros Hlt. specialize (Hlt _ _ Hm Hms').
    assert (score m' <= score m) by (apply (Hmax (product m')); assumption).
    lra.
Qed.

End TieExtras.

Lemma find_best_match_first_of_ties_witness :
  exists m (before after : list db_row),
    find_best_match tsr_ref json_ref (Ok [row_unnamed; row_5900x; row_5900x_oem])
      scraped_ryzen 70 = Ok (Some m) /\
    product m = row_5900x /\
    [row_unnamed; row_5900x; row_5900x_oem] = (before ++ product m :: after)%list /\
    (forall r s, r ∈ before ->
       calculate_similarity_score tsr_ref json_ref scraped_ryzen r = Ok s -> s < score m).
Proof.
  eexists.
  destruct (find_best_match_first_of_ties tsr_ref json_ref
              [row_unnamed; row_5900x; row_5900x_oem] scraped_ryzen 70 _
              ltac:(vm_compute; reflexivity))
    as (before & after & Hrows & _ & Hbefore & _).
  exists before, after. split; [vm_compute; reflexivity|].
  split; [vm_compute; reflexivity|]. split; assumption.
Defined.

Lemma find_best_match_threshold_independent_witness :
  exists m,
    find_best_match tsr_ref json_ref (Ok [row_unnamed; row_5900x]) scraped_ryzen 70
    = Ok (Some m) /\
    find_best_match tsr_ref json_ref (Ok [row_unnamed; row_5900x]) scraped_ryzen 95
    = Ok (Some m).
Proof.
  eexists. split; [vm_compute; reflexivity|].
  apply (find_best_match_threshold_independent tsr_ref json_ref
           [row_unnamed; row_5900x] scraped_ryzen 70 95);
    [vm_compute; reflexivity | discriminate].
Defined.

(** ** The matching loop *)

Section MatchingLoopProperties.

Variable token_set_ratio : string -> string -> Q.
Variable json_loads : string -> exc json_value.

Local Abbreviation run := (match_products token_set_ratio json_loads).

Lemma match_products_acc (cpus : list (scraped_product * exc (list db_row))) :
  exists new, forall acc, run cpus acc = Ok (acc ++ new)%list.
Proof.
  induction cpus as [|[cpu fetch] cpus [new IH]]; simpl.
  - exists []. intros acc. now rewrite app_nil_r.
  - destruct (find_best_match_returns token_set_ratio json_loads fetch cpu
                similarity_threshold_default) as [[m|] ->]; simpl.
    + exists ({| mp_scraped_product := cpu; mp_database_match := m;
                 mp_similarity_score := score m |} :: new).
      intros acc. rewrite IH. now rewrite <- app_assoc.
    + exists new. exact IH.
Qed.

(** X14: the matching loop never raises and treats the products one by one:
    the result for a batch is the result for its first part followed by the
    result for the rest, so a product that fails to match, or whose catalog
    read fails, changes nothing for the other products. *)
Theorem match_products_app (cpus1 cpus2 : list (scraped_product * exc (list db_row))) :
  exists r1 r2,
    run cpus1 [] = Ok r1 /\ run cpus2 [] = Ok r2 /\
    run (cpus1 ++ cpus2)%list [] = Ok (r1 ++ r2)%list.
Proof.
  destruct (match_products_acc cpus2) as [r2 H2].
  assert (H : exists r1, forall acc,
    run cpus1 acc = Ok (acc ++ r1)%list /\
    run (cpus1 ++ cpus2)%list acc = Ok (acc ++ r1 ++ r2)%list).
  { induction cpus1 as [|[cpu fetch] cpus1 [r1 IH]]; simpl.
    - exists []. intros acc. rewrite H2. now rewrite app_nil_r.
    - destruct (find_best_match_returns token_set_ratio json_loads fetch cpu
                  similarity_threshold_default) as [[m|] ->]; simpl.
      + exists ({| mp_scraped_product := cpu; mp_database_match := m;
                   mp_similarity_score := score m |} :: r1).
        intros acc. destruct (IH (acc ++ [{| mp_scraped_product := cpu;
          mp_database_match := m; mp_similarity_score := score m |}])%list) as [-> ->].
        now rewrite <- !app_assoc.
      + exists r1. exact IH. }
  destruct H as [r1 H]. exists r1, r2. destruct (H []) as [H1 H12].
  split; [exact H1|]. split; [apply (H2 [])|exact H12].
Qed.

(** X15: every entry of [matched_products] pairs a scraped product of the
    batch with a row of the catalog read for that product; the entry carries
    the composite score of that row, which is at least 70 and is the
    greatest score in that catalog. *)
Theorem match_products_entries (cpus : list (scraped_product * exc (list db_row)))
    (matched : list matched_product) (e : matched_product) :
  run cpus [] = Ok matched -> e ∈ matched ->
  exists rows,
    (mp_scraped_product e, Ok rows) ∈ cpus /\
    product (mp_database_match e) ∈ rows /\
    mp_similarity_score e = score (mp_database_match e) /\
    calculate_similarity_score token_set_ratio json_loads (mp_scraped_product e)
      (product (mp_database_match e)) = Ok (mp_similarity_score e) /\
    70 <= mp_similarity_score e /\
    (forall r s, r ∈ rows ->
       calculate_similarity_score token_set_ratio json_loads (mp_scraped_product e) r
       = Ok s -> s <= mp_similarity_score e).
Proof.
  revert matched. induction cpus as [|[cpu fetch] cpus IH]; intros matched H He.
  - injection H as <-. now apply elem_of_nil in He.
  - simpl in H.
    destruct (find_best_match token_set_ratio json_loads fetch cpu
                similarity_threshold_default) as [[m|]|ex] eqn:Hb; simpl in H;
      [| |discriminate].
    + destruct (match_products_acc cpus) as [new Hn].
      simpl in H. rewrite Hn in H. injection H as <-.
      specialize (Hn []). simpl in Hn.
      apply elem_of_cons in He as [->|He].
      * simpl.
        destruct fetch as [rows|ex]; [|discriminate].
        apply find_best_match_some in Hb as (Hp & Hs & Hthr & Hmax).
        exists rows. split; [left|]. repeat split; auto.
      * destruct (IH new Hn He) as (rows & Hin & Hrest).
        exists rows. split; [now right | exact Hrest].
    + destruct (IH matched H He) as (rows & Hin & Hrest).
      exists rows. split; [now right | exact Hrest].
Qed.

End MatchingLoopProperties.

Lemma match_products_entries_witness :
  exists matched e rows,
    match_products tsr_ref json_ref
      [ (scraped_unpriced, Ok [row_5900x]);
        (scraped_ryzen, Raise DatabaseError);
        (scraped_ryzen, Ok [row_unnamed; row_5900x]) ] [] = Ok matched /\
    matched = [e] /\
    (mp_scraped_product e, Ok rows)
    ∈ [ (scraped_unpriced, Ok [row_5900x]);
        (scraped_ryzen, Raise DatabaseError);
        (scraped_ryzen, Ok [row_unnamed; row_5900x]) ] /\
    70 <= mp_similarity_score e.
Proof.
  eexists. eexists.
  destruct (match_products_entries tsr_ref json_ref
              [ (scraped_unpriced, Ok [row_5900x]);
                (scraped_ryzen, Raise DatabaseError);
                (scraped_ryzen, Ok [row_unnamed; row_5900x]) ] _ _
              ltac:(vm_compute; reflexivity) ltac:(left))
    as (rows & Hin & _ & _ & _ & Hthr & _).
  exists rows. split; [vm_compute; reflexivity|]. split; [reflexivity|].
  split; assumption.
Defined.

(** ** Further properties of the extractors *)

Section ExtractorExtras.

Variable re_search : string -> string -> list re_flag -> option (list string).

Lemma cpu_apply_patterns_no_match (patterns : list (string * string))
    (description : string) (specs : gmap string string) :
  (forall p k, (p, k) ∈ patterns -> re_search p description [IGNORECASE] = None) ->
  AmazonCPUScraper.apply_patterns re_search patterns description specs = Ok specs.
Proof.
  induction patterns as [|[p k] rest IH]; intros H; simpl; [reflexivity|].
  rewrite (H p k) by left. apply IH. intros p' k' Hin. apply (H p' k'). now right.
Qed.

Lemma laptop_apply_patterns_no_match (patterns : list (string * string))
    (description : string) (specs : gmap string string) :
  (forall p k, (p, k) ∈ patterns -> re_search p description [IGNORECASE] = None) ->
  LaptopScraper.apply_patterns re_search patterns description specs = specs.
Proof.
  induction patterns as [|[p k] rest IH]; intros H; simpl; [reflexivity|].
  rewrite (H p k) by left. apply IH. intros p' k' Hin. apply (H p' k'). now right.
Qed.

(** X16: a description in which no pattern of the rule table matches gives
    the empty map, in the CPU extractor and in the laptop extractor. *)
Theorem extract_specifications_no_match (description : string) :
  ((forall p k, (p, k) ∈ AmazonCPUScraper.spec_patterns ->
      re_search p description [IGNORECASE] = None) ->
   AmazonCPUScraper.extract_specifications re_search description = Ok ∅) /\
  ((forall p k, (p, k) ∈ LaptopScraper.spec_patterns ->
      re_search p description [IGNORECASE] = None) ->
   LaptopScraper.extract_specifications re_search description = ∅).
Proof.
  split; intros H.
  - now apply cpu_apply_patterns_no_match.
  - now apply laptop_apply_patterns_no_match.
Qed.

Lemma first_match_size (patterns : list (string * string)) (description : string)
    (specs specs' : gmap string string) :
  LaptopDbScraper.first_match re_search patterns description specs = Ok specs' ->
  specs' = specs \/ exists k g, specs' = <[k := g]> specs.
Proof.
  induction patterns as [|[p k] rest IH]; simpl.
  - intros [= <-]. now left.
  - destruct (re_search p description [IGNORECASE]) as [[|g gs]|]; simpl.
    + discriminate.
    + intros [= <-]. right. eauto.
    + exact IH.
Qed.

Lemma first_match_first (pre post : list (string * string)) (p k g : string)
    (gs : list string) (description : string) (specs : gmap string string) :
  (forall p' k', (p', k') ∈ pre -> re_search p' description [IGNORECASE] = None) ->
  re_search p description [IGNORECASE] = Some (g :: gs) ->
  LaptopDbScraper.first_match re_search (pre ++ (p, k) :: post)%list description specs
  = Ok (<[k := g]> specs).
Proof.
  intros Hpre Hp. induction pre as [|[p' k'] pre IH]; simpl.
  - now rewrite Hp.
  - rewrite (Hpre p' k') by left. apply IH. intros p'' k'' Hin.
    apply (Hpre p'' k''). now right.
Qed.

Lemma first_match_none (patterns : list (string * string)) (description : string)
    (specs : gmap string string) :
  (forall p k, (p, k) ∈ patterns -> re_search p description [IGNORECASE] = None) ->
  LaptopDbScraper.first_match re_search patterns description specs = Ok specs.
Proof.
  induction patterns as [|[p k] rest IH]; intros H; simpl; [reflexivity|].
  rewrite (H p k) by left. apply IH. intros p' k' Hin. apply (H p' k'). now right.
Qed.

(** X17: the extractor of [laptops.py] stores at most one attribute: the
    first group of the first Arabic rule that matches, the English rules not
    being tried then; or, when no Arabic rule matches, the first group of
    the first English rule that matches. *)
Theorem laptops_extract_specifications_first_rule (description : string) :
  (forall specs,
     LaptopDbScraper.extract_specifications re_search description = Ok specs ->
     size specs <= 1)%nat /\
  (forall pre post p k g gs,
     LaptopDbScraper.spec_patterns = (pre ++ (p, k) :: post)%list ->
     (forall p' k', (p', k') ∈ pre -> re_search p' description [IGNORECASE] = None) ->
     re_search p description [IGNORECASE] = Some (g :: gs) ->
     LaptopDbScraper.extract_specifications re_search description = Ok {[ k := g ]}) /\
  (forall pre post p k g gs,
     (forall p' k', (p', k') ∈ LaptopDbScraper.spec_patterns ->
        re_search p' description [IGNORECASE] = None) ->
     LaptopDbScraper.english_patterns = (pre ++ (p, k) :: post)%list ->
     (forall p' k', (p', k') ∈ pre -> re_search p' description [IGNORECASE] = None) ->
     re_search p description [IGNORECASE] = Some (g :: gs) ->
     LaptopDbScraper.extract_specifications re_search description = Ok {[ k := g ]}).
Proof.
  unfold LaptopDbScraper.extract_specifications. split; [|split].
  - intros specs H. apply exc_bind_ok in H as (specs0 & H0 & H).
    apply first_match_size in H0 as [->|(k & g & ->)].
    + rewrite map_size_empty in H. cbn [Nat.eqb] in H.
      apply first_match_size in H as [->|(k & g & ->)].
      * rewrite map_size_empty. lia.
      * rewrite insert_empty, map_size_singleton. lia.
    + rewrite insert_empty, map_size_singleton in H. cbn [Nat.eqb] in H.
      injection H as <-. rewrite map_size_singleton. lia.
  - intros pre post p k g gs -> Hpre Hp.
    rewrite (first_match_first pre post p k g gs description ∅ Hpre Hp).
    cbn [exc_bind]. now rewrite insert_empty, map_size_singleton.
  - intros pre post p k g gs Har -> Hpre Hp.
    rewrite (first_match_none _ description ∅ Har).
    cbn [exc_bind]. rewrite map_size_empty. cbn [Nat.eqb].
    rewrite <- insert_empty.
    apply (first_match_first pre post p k g gs description ∅ Hpre Hp).
Qed.

End ExtractorExtras.

Lemma extract_specifications_no_match_witness :
  AmazonCPUScraper.extract_specifications re_ref "No description available" = Ok ∅ /\
  LaptopScraper.extract_specifications re_ref "No description available" = ∅.
Proof.
  split.
  - apply (proj1 (extract_specifications_no_match re_ref "No description available")).
    intros p k _. reflexivity.
  - apply (proj2 (extract_specifications_no_match re_ref "No description available")).
    intros p k _. reflexivity.
Defined.

Lemma laptops_extract_specifications_first_rule_witness :
  LaptopDbScraper.extract_specifications re_ref laptop_text = Ok {[ "RAM" := "16" ]} /\
  (size ({[ "RAM" := "16" ]} : gmap string string) <= 1)%nat.
Proof.
  pose proof (laptops_extract_specifications_first_rule re_ref laptop_text)
    as (Hsize & _ & Hen).
  assert (H : LaptopDbScraper.extract_specifications re_ref laptop_text
              = Ok {[ "RAM" := "16" ]}).
  { apply (Hen [] (tl LaptopDbScraper.english_patterns) "(\d+)\s*GB\s*RAM" "RAM" "16" []).
    - intros p k Hin. unfold LaptopDbScraper.spec_patterns in Hin.
      repeat (apply elem_of_cons in Hin as [[= -> ->]|Hin]; [vm_compute; reflexivity|]).
      now apply elem_of_nil in Hin.
    - reflexivity.
    - intros p k Hin. now apply elem_of_nil in Hin.
    - vm_compute. reflexivity. }
  split; [exact H|]. exact (Hsize _ H).
Defined.

(** ** Price assembly *)

Lemma count_char_app (a : ascii) (s t : string) :
  count_char a (s ++ t) = (count_char a s + count_char a t)%nat.
Proof. induction s as [|c s IH]; simpl; [reflexivity|]. rewrite IH. lia. Qed.

Lemma count_point_lstrip (s : string) : count_char "." (lstrip s) = count_char "." s.
Proof.
  induction s as [|c s IH]; simpl; [reflexivity|].
  destruct (is_space c) eqn:E; [|reflexivity].
  rewrite IH. destruct (Ascii.eqb c ".") eqn:Ec; [|reflexivity].
  apply Ascii.eqb_eq in Ec. subst c. discriminate.
Qed.

Lemma count_point_rstrip (s : string) : count_char "." (rstrip s) = count_char "." s.
Proof.
  induction s as [|c s IH]; simpl; [reflexivity|].
  destruct (rstrip s) as [|d r] eqn:Er.
  - simpl in IH. rewrite <- IH. destruct (is_space c) eqn:E; simpl; [|lia].
    destruct (Ascii.eqb c ".") eqn:Ec; [|reflexivity].
    apply Ascii.eqb_eq in Ec. subst c. discriminate.
  - simpl. simpl in IH. now rewrite IH.
Qed.

Lemma count_point_sub_non_numeric (s : string) :
  count_char "." (sub_non_numeric s) = count_char "." s.
Proof.
  induction s as [|c s IH]; simpl; [reflexivity|].
  destruct (Ascii.eqb c ".") eqn:Ec.
  - rewrite orb_true_r. simpl. now rewrite Ec, IH.
  - rewrite orb_false_r. destruct (is_digit c); simpl; [now rewrite Ec, IH | exact IH].
Qed.

Lemma all_digits_no_point (s : string) : all_digits s = true -> count_char "." s = O.
Proof.
  induction s as [|c s IH]; simpl; [reflexivity|].
  intros H. apply andb_true_iff in H as [Hc Hs]. rewrite (IH Hs).
  destruct (Ascii.eqb c ".") eqn:Ec; [|reflexivity].
  apply Ascii.eqb_eq in Ec. subst c. discriminate.
Qed.

Lemma split_point_count (s ip : string) (rest : option string) :
  split_point s = (ip, rest) ->
  count_char "." s
  = match rest with Some f => S (count_char "." f) | None => O end.
Proof.
  revert ip rest. induction s as [|c s IH]; simpl; intros ip rest.
  - now intros [= <- <-].
  - destruct (Ascii.eqb c ".") eqn:Ec.
    + now intros [= <- <-].
    + destruct (split_point s) as [a b]. intros [= <- <-]. apply (IH a b eq_refl).
Qed.

(** A text with two points or more is not a number. *)
Lemma py_float_two_points (s : string) :
  (2 <= count_char "." s)%nat -> py_float s = Raise ValueError.
Proof.
  intros H. unfold py_float. destruct (split_point s) as [ip rest] eqn:Es.
  rewrite (split_point_count s ip rest Es) in H.
  destruct rest as [f|]; [|lia].
  destruct (all_digits f) eqn:Ef.
  - apply all_digits_no_point in Ef. lia.
  - now rewrite andb_false_r.
Qed.

(** X18: a listing without the whole-part element gets the price ['N/A'],
    and a listing whose whole-part text already holds a point gets a price
    with two points; in both cases the price does not parse and the price
    similarity with every catalog price is 0. *)
Theorem assemble_price_unparsable (price_whole price_fraction : option string)
    (db_price : pyval) :
  price_whole = None \/
  (exists whole fraction,
     price_whole = Some whole /\ price_fraction = Some fraction /\
     (1 <= count_char "." whole)%nat) ->
  calculate_price_similarity (PStr (assemble_price price_whole price_fraction)) db_price
  = Ok 0.
Proof.
  intros H. apply calculate_price_similarity_unparsed. left. exists ValueError.
  destruct H as [->|(whole & fraction & -> & -> & Hp)]; simpl.
  - reflexivity.
  - apply py_float_two_points.
    rewrite count_point_sub_non_numeric, !count_char_app. unfold str_strip.
    rewrite count_point_rstrip, count_point_lstrip. simpl. lia.
Qed.

Lemma assemble_price_unparsable_witness :
  calculate_price_similarity (PStr (assemble_price None (Some "99"))) (PStr "299.99") = Ok 0 /\
  assemble_price (Some " 299. ") (Some "99") = "299..99" /\
  calculate_price_similarity (PStr (assemble_price (Some " 299. ") (Some "99")))
    (PStr "299.99") = Ok 0.
Proof.
  split; [|split].
  - apply (assemble_price_unparsable None (Some "99")). now left.
  - reflexivity.
  - apply (assemble_price_unparsable (Some " 299. ") (Some "99")). right.
    exists " 299. ", "99". repeat split. simpl. lia.
Defined.









(** ** [scrap.py] *)

Lemma string_length_app (s t : string) :
  String.length (s ++ t) = (String.length s + String.length t)%nat.
Proof. induction s as [|c s IH]; simpl; [reflexivity | now rewrite IH]. Qed.

Lemma sanitize_date_no_slash (date : string) : count_char "/" (sanitize_date date) = O.
Proof.
  induction date as [|c date IH]; simpl; [reflexivity|]. rewrite IH.
  destruct (Ascii.eqb c "/") eqn:E; [reflexivity|]. now rewrite E.
Qed.

(** X20: whatever date is typed, the name of the CSV file holds no slash and
    is as long as the date plus the twelve characters around it; a date
    without a slash is kept as it is. *)
Theorem matches_file_name_no_slash (date : string) :
  count_char "/" (matches_file_name date) = O /\
  String.length (matches_file_name date) = (12 + String.length date)%nat /\
  (count_char "/" date = O -> sanitize_date date = date).
Proof.
  split; [|split].
  - unfold matches_file_name. rewrite !count_char_app, sanitize_date_no_slash. reflexivity.
  - unfold matches_file_name. rewrite !string_length_app. simpl.
    assert (H : String.length (sanitize_date date) = String.length date)
      by (induction date as [|c d IH]; simpl; [reflexivity | now rewrite IH]).
    rewrite H. lia.
  - induction date as [|c date IH]; simpl; [reflexivity|].
    destruct (Ascii.eqb c "/"); [discriminate|]. intros H. now rewrite (IH H).
Qed.

Lemma matches_file_name_no_slash_witness :
  sanitize_date "2024-12-03" = "2024-12-03" /\
  matches_file_name "12/03/2024" = "matches_12-03-2024.csv".
Proof.
  split.
  - apply (proj2 (proj2 (matches_file_name_no_slash "2024-12-03"))). reflexivity.
  - reflexivity.
Defined.

(** ** [clean_text] *)

Lemma arabic_digit_cases (c : N) :
  is_arabic_digit c = true ->
  (c = 1632 \/ c = 1633 \/ c = 1634 \/ c = 1635 \/ c = 1636 \/
   c = 1637 \/ c = 1638 \/ c = 1639 \/ c = 1640 \/ c = 1641)%N.
Proof.
  unfold is_arabic_digit. intros H. apply andb_true_iff in H as [H1 H2].
  apply N.leb_le in H1, H2. lia.
Qed.

Lemma py_isspace_western (c : N) : py_isspace (western_digit c) = py_isspace c.
Proof.
  unfold western_digit. destruct (is_arabic_digit c) eqn:E; [|reflexivity].
  apply arabic_digit_cases in E.
  repeat (destruct E as [->|E]; [reflexivity|]). now subst c.
Qed.

Lemma western_digit_space (c : N) : (western_digit c =? 32)%N = (c =? 32)%N.
Proof.
  unfold western_digit. destruct (is_arabic_digit c) eqn:E; [|reflexivity].
  apply arabic_digit_cases in E.
  repeat (destruct E as [->|E]; [reflexivity|]). now subst c.
Qed.

Lemma western_digit_not_arabic (c : N) : is_arabic_digit (western_digit c) = false.
Proof.
  unfold western_digit. destruct (is_arabic_digit c) eqn:E; [|exact E].
  apply arabic_digit_cases in E.
  repeat (destruct E as [->|E]; [reflexivity|]). now subst c.
Qed.

Lemma western_digit_idempotent (c : N) : western_digit (western_digit c) = western_digit c.
Proof.
  unfold western_digit at 1. now rewrite western_digit_not_arabic.
Qed.

(** The ten replacements amount to one pass over the text. *)
Lemma replace_chain_western (c : N) :
  (fun c => if (c =? 1641)%N then 57%N else c)
    ((fun c => if (c =? 1640)%N then 56%N else c)
       ((fun c => if (c =? 1639)%N then 55%N else c)
          ((fun c => if (c =? 1638)%N then 54%N else c)
             ((fun c => if (c =? 1637)%N then 53%N else c)
                ((fun c => if (c =? 1636)%N then 52%N else c)
                   ((fun c => if (c =? 1635)%N then 51%N else c)
                      ((fun c => if (c =? 1634)%N then 50%N else c)
                         ((fun c => if (c =? 1633)%N then 49%N else c)
                            ((fun c => if (c =? 1632)%N then 48%N else c) c)))))))))
  = western_digit c.
Proof.
  unfold western_digit. destruct (is_arabic_digit c) eqn:E.
  - apply arabic_digit_cases in E.
    repeat (destruct E as [->|E]; [reflexivity|]). now subst c.
  - unfold is_arabic_digit in E. apply andb_false_iff in E.
    cbv beta.
    repeat match goal with
           | |- context [(c =? ?k)%N] =>
               destruct (N.eqb_spec c k) as [->|?]; [destruct E; discriminate|]
           end.
    reflexivity.
Qed.

Lemma replace_chain_map (text : utext) :
  replace_char 1641 57 (replace_char 1640 56 (replace_char 1639 55
    (replace_char 1638 54 (replace_char 1637 53 (replace_char 1636 52
      (replace_char 1635 51 (replace_char 1634 50 (replace_char 1633 49
        (replace_char 1632 48 text)))))))))
  = map western_digit text.
Proof.
  unfold replace_char. rewrite !map_map. apply map_ext. intros c.
  apply replace_chain_western.
Qed.

Lemma clean_text_single_pass (text : utext) :
  clean_text text = map western_digit (py_join [32%N] (py_split text)).
Proof.
  destruct text as [|c text]; [reflexivity|].
  unfold clean_text. cbn [fold_left arabic_numerals]. apply replace_chain_map.
Qed.

(** X21: the two versions of [clean_text] agree, and both amount to
    joining the words of the text with single spaces and then replacing each
    Arabic-Indic digit by its Western digit in one pass. *)
Theorem clean_text_variants_agree (text : utext) :
  clean_text_chained text = clean_text text /\
  clean_text text = map western_digit (py_join [32%N] (py_split text)).
Proof.
  split; [|apply clean_text_single_pass].
  destruct text; reflexivity.
Qed.

Lemma no_space_app (w v : utext) : no_space (w ++ v) = no_space w && no_space v.
Proof. unfold no_space. apply forallb_app. Qed.

Lemma split_from_words (text word : utext) :
  no_space word = true -> Forall word_ok (split_from word text).
Proof.
  revert word. induction text as [|c text IH]; intros word Hw; simpl.
  - destruct word as [|d word]; constructor; [|constructor]. split; [discriminate|exact Hw].
  - destruct (py_isspace c) eqn:Ec.
    + destruct word as [|d word]; [now apply IH|].
      constructor; [split; [discriminate|exact Hw] | now apply IH].
    + apply IH. rewrite no_space_app, Hw. simpl. now rewrite Ec.
Qed.

Lemma split_from_skip_word (w word text : utext) :
  no_space w = true -> split_from word (w ++ text) = split_from (word ++ w) text.
Proof.
  revert word. induction w as [|c w IH]; intros word Hw; simpl.
  - now rewrite app_nil_r.
  - simpl in Hw. apply andb_true_iff in Hw as [Hc Hw]. apply negb_true_iff in Hc.
    rewrite Hc, (IH _ Hw). now rewrite <- app_assoc.
Qed.

(** Splitting what was joined gives the words back. *)
Lemma py_split_join (ws : list utext) :
  Forall word_ok ws -> py_split (py_join [32%N] ws) = ws.
Proof.
  unfold py_split. induction 1 as [|w ws [Hne Hw] Hws IH]; [reflexivity|].
  destruct ws as [|w2 ws].
  - simpl. rewrite <- (app_nil_r w) at 1. rewrite (split_from_skip_word _ _ _ Hw). simpl.
    destruct w; congruence.
  - change (py_join [32%N] (w :: w2 :: ws))
      with (w ++ 32%N :: py_join [32%N] (w2 :: ws))%list.
    rewrite (split_from_skip_word _ _ _ Hw). simpl app.
    change (split_from w (32%N :: py_join [32%N] (w2 :: ws)))
      with (match w with
            | [] => split_from [] (py_join [32%N] (w2 :: ws))
            | _ => w :: split_from [] (py_join [32%N] (w2 :: ws))
            end).
    rewrite IH. destruct w; congruence.
Qed.

Lemma py_split_map (f : N -> N) (text : utext) :
  (forall c, py_isspace (f c) = py_isspace c) ->
  py_split (map f text) = map (map f) (py_split text).
Proof.
  intros Hf. unfold py_split. change (@nil N) with (map f []) at 1.
  generalize (@nil N) as word.
  induction text as [|c text IH]; intros word; simpl.
  - destruct word; reflexivity.
  - rewrite Hf. destruct (py_isspace c).
    + change (@nil N) with (map f []) at 1 2. rewrite !IH. destruct word; reflexivity.
    + rewrite <- IH. now rewrite map_app.
Qed.

Lemma py_join_map (f : N -> N) (sep : utext) (ws : list utext) :
  py_join (map f sep) (map (map f) ws) = map f (py_join sep ws).
Proof.
  induction ws as [|w ws IH]; [reflexivity|].
  destruct ws as [|w2 ws]; [reflexivity|].
  change (py_join sep (w :: w2 :: ws)) with (w ++ sep ++ py_join sep (w2 :: ws))%list.
  rewrite !map_app, <- IH. reflexivity.
Qed.

Lemma spaces_ok_skip_word (w rest : utext) :
  no_space w = true -> spaces_ok (w ++ rest) = spaces_ok rest.
Proof.
  induction w as [|c w IH]; intros Hw; [reflexivity|].
  simpl in Hw. apply andb_true_iff in Hw as [Hc Hw].
  simpl. now rewrite Hc, (IH Hw).
Qed.

Lemma py_join_head (w : utext) (ws : list utext) :
  word_ok w ->
  exists c rest, py_join [32%N] (w :: ws) = c :: rest /\ py_isspace c = false.
Proof.
  intros [Hne Hw]. destruct w as [|c w]; [congruence|].
  simpl in Hw. apply andb_true_iff in Hw as [Hc _]. apply negb_true_iff in Hc.
  destruct ws; simpl; eauto.
Qed.

Lemma py_join_spaces_ok (ws : list utext) :
  Forall word_ok ws -> spaces_ok (py_join [32%N] ws) = true.
Proof.
  induction 1 as [|w ws [Hne Hw] Hws IH]; [reflexivity|].
  destruct ws as [|w2 ws].
  - simpl. rewrite <- (app_nil_r w). now rewrite (spaces_ok_skip_word _ _ Hw).
  - change (py_join [32%N] (w :: w2 :: ws))
      with (w ++ 32%N :: py_join [32%N] (w2 :: ws))%list.
    rewrite (spaces_ok_skip_word _ _ Hw).
    destruct (py_join_head w2 ws) as (c & rest & Hj & Hc); [now inversion Hws|].
    rewrite Hj in IH |- *. simpl in IH |- *. rewrite Hc in IH |- *. exact IH.
Qed.

Lemma py_join_well_spaced (ws : list utext) :
  Forall word_ok ws -> well_spaced (py_join [32%N] ws) = true.
Proof.
  intros H. unfold well_spaced. rewrite (py_join_spaces_ok ws H), andb_true_r.
  destruct H as [|w ws Hw Hws]; [reflexivity|].
  destruct (py_join_head w ws Hw) as (c & rest & -> & Hc). now rewrite Hc.
Qed.

Lemma well_spaced_map_western (text : utext) :
  well_spaced (map western_digit text) = well_spaced text.
Proof.
  unfold well_spaced. f_equal.
  - destruct text; [reflexivity|]. simpl. now rewrite py_isspace_western.
  - induction text as [|c text IH]; [reflexivity|].
    simpl. rewrite IH, py_isspace_western, western_digit_space.
    destruct text; [reflexivity|]. simpl. now rewrite py_isspace_western.
Qed.

(** X22: the result of [clean_text] has no white space at either end, only
    single U+0020 between its words, and no Arabic-Indic digit. *)
Theorem clean_text_normal_form (text : utext) :
  well_spaced (clean_text text) = true /\
  forallb (fun c => negb (is_arabic_digit c)) (clean_text text) = true.
Proof.
  rewrite clean_text_single_pass. split.
  - rewrite well_spaced_map_western. apply py_join_well_spaced.
    now apply split_from_words.
  - apply forallb_forall. intros c Hc. apply in_map_iff in Hc as (d & <- & _).
    now rewrite western_digit_not_arabic.
Qed.

(** X23: [clean_text] is idempotent: cleaning a cleaned text changes
    nothing. *)
Theorem clean_text_idempotent (text : utext) :
  clean_text (clean_text text) = clean_text text.
Proof.
  rewrite !clean_text_single_pass.
  rewrite (py_split_map western_digit _ py_isspace_western).
  change [32%N] with (map western_digit [32%N]) at 1.
  rewrite py_join_map, map_map.
  rewrite py_split_join by now apply split_from_words.
  apply map_ext. intros c. apply western_digit_idempotent.
Qed.

Lemma py_join_length (w : utext) (ws : list utext) :
  (length (py_join [32%N] (w :: ws)) <= length w + S (length (py_join [32%N] ws)))%nat.
Proof.
  destruct ws as [|w2 ws]; [simpl; lia|].
  change (py_join [32%N] (w :: w2 :: ws))
    with (w ++ 32%N :: py_join [32%N] (w2 :: ws))%list.
  rewrite length_app. simpl. lia.
Qed.

Lemma split_from_length (text word : utext) :
  (length (py_join [32%N] (split_from word text)) <= length word + length text)%nat.
Proof.
  revert word. induction text as [|c text IH]; intros word; simpl.
  - destruct word; simpl; lia.
  - destruct (py_isspace c).
    + destruct word as [|d word].
      * specialize (IH []). simpl in IH. lia.
      * pose proof (py_join_length (d :: word) (split_from [] text)) as H.
        specialize (IH []). simpl in IH, H |- *. lia.
    + specialize (IH (word ++ [c])%list). rewrite length_app in IH. simpl in IH. lia.
Qed.

(** X24: [clean_text] never lengthens a text. *)
Theorem clean_text_length (text : utext) :
  (length (clean_text text) <= length text)%nat.
Proof.
  rewrite clean_text_single_pass, length_map. apply (split_from_length text []).
Qed.

Example clean_text_arabic :
  clean_text [32; 32; 1633; 1634; 160; 32; 1580; 9; 1585; 10]%N
  = [49; 50; 32; 1580; 32; 1585]%N.
Proof. reflexivity. Qed.

(** ** [insert_laptops_to_db] *)

Section InsertProperties.

Variable json_dumps : gmap string string -> string.
Variable name_eq : string -> string -> bool.

Local Abbreviation insert_one := (insert_laptop json_dumps name_eq).
Local Abbreviation insert_all := (insert_laptops_to_db json_dumps name_eq).

Lemma select_count_pos (table : list laptop_row) (name : string) :
  (0 <? select_count name_eq table name)%nat = true <->
  exists r, r ∈ table /\ name_eq (row_name r) name = true.
Proof.
  unfold select_count. rewrite Nat.ltb_lt. split.
  - intros H. destruct (filter _ table) as [|r l] eqn:E; [simpl in H; lia|].
    assert (Hr : r ∈ filter (fun r => name_eq (row_name r) name = true) table)
      by (rewrite E; left).
    apply list_elem_of_filter in Hr as [Hn Hr]. eauto.
  - intros (r & Hr & Hn).
    assert (Hin : r ∈ filter (fun r => name_eq (row_name r) name = true) table)
      by (apply list_elem_of_filter; auto).
    destruct (filter _ table); [now apply elem_of_nil in Hin | simpl; lia].
Qed.

(** One iteration: the table is kept, or the row of the laptop is appended,
    which happens only when no row has its name. *)
Lemma insert_laptop_cases (table : list laptop_row) (l : laptop) (fault : db_fault) :
  insert_one table l fault = Ok table \/
  (insert_one table l fault = Ok (table ++ [row_of_laptop json_dumps l])%list /\
   fault <> SelectFault /\ fault <> InsertFault /\
   forall r, r ∈ table -> name_eq (row_name r) (lp_name l) = false).
Proof.
  unfold insert_laptop.
  destruct (0 <? select_count name_eq table (lp_name l))%nat eqn:E.
  - left. destruct fault; simpl; rewrite ?E; reflexivity.
  - destruct fault; simpl; rewrite ?E; simpl; auto.
    right. split; [reflexivity|]. split; [discriminate|]. split; [discriminate|].
    intros r Hr. destruct (name_eq (row_name r) (lp_name l)) eqn:En; [|reflexivity].
    assert (H : (0 <? select_count name_eq table (lp_name l))%nat = true)
      by (apply select_count_pos; eauto).
    congruence.
Qed.

Lemma insert_all_extends (table : list laptop_row) (laptops : list (laptop * db_fault)) :
  exists added,
    insert_all table laptops = Ok (table ++ added)%list /\
    (length added <= length laptops)%nat /\
    (forall r, r ∈ added ->
       exists l fault, (l, fault) ∈ laptops /\ r = row_of_laptop json_dumps l).
Proof.
  revert table. induction laptops as [|[l fault] laptops IH]; intros table; simpl.
  - exists []. rewrite app_nil_r. split; [reflexivity|]. split; [simpl; lia|].
    intros r Hr. now apply elem_of_nil in Hr.
  - destruct (insert_laptop_cases table l fault) as [->|[-> _]]; simpl.
    + destruct (IH table) as (added & -> & Hlen & Hrows).
      exists added. split; [reflexivity|]. split; [simpl; lia|].
      intros r Hr. destruct (Hrows r Hr) as (l' & f' & Hin & ->).
      exists l', f'. split; [now right | reflexivity].
    + destruct (IH (table ++ [row_of_laptop json_dumps l])%list)
        as (added & -> & Hlen & Hrows).
      exists (row_of_laptop json_dumps l :: added).
      split; [now rewrite <- app_assoc|]. split; [simpl; lia|].
      intros r Hr. apply elem_of_cons in Hr as [->|Hr].
      * exists l, fault. split; [left | reflexivity].
      * destruct (Hrows r Hr) as (l' & f' & Hin & ->).
        exists l', f'. split; [now right | reflexivity].
Qed.

(** X25: [insert_laptops_to_db] never raises and never removes or changes a
    row: the table it leaves is the table it found followed by rows built
    from laptops of the batch, at most one per laptop. *)
Theorem insert_laptops_to_db_extends (table : list laptop_row)
    (laptops : list (laptop * db_fault)) :
  exists added,
    insert_all table laptops = Ok (table ++ added)%list /\
    (length added <= length laptops)%nat /\
    (forall r, r ∈ added ->
       exists l fault, (l, fault) ∈ laptops /\ r = row_of_laptop json_dumps l).
Proof. apply insert_all_extends. Qed.

Lemma names_distinct_snoc (table : list laptop_row) (x : laptop_row) :
  names_distinct name_eq table ->
  (forall r, r ∈ table -> name_eq (row_name r) (row_name x) = false) ->
  names_distinct name_eq (table ++ [x])%list.
Proof.
  induction table as [|r table IH]; intros Hd Hx; simpl.
  - split; [constructor | exact I].
  - destruct Hd as [Hr Hd]. split.
    + apply Forall_app. split; [exact Hr|]. constructor; [apply Hx; left | constructor].
    + apply IH; [exact Hd|]. intros r' Hr'. apply Hx. now right.
Qed.

(** X26: if no two rows of the table have names that the database takes for
    equal, this still holds after [insert_laptops_to_db], whatever the batch
    and the database errors are. *)
Theorem insert_laptops_to_db_distinct (table table' : list laptop_row)
    (laptops : list (laptop * db_fault)) :
  names_distinct name_eq table ->
  insert_all table laptops = Ok table' ->
  names_distinct name_eq table'.
Proof.
  revert table. induction laptops as [|[l fault] laptops IH]; intros table Hd; simpl.
  - now intros [= <-].
  - destruct (insert_laptop_cases table l fault) as [->|(-> & _ & _ & Hnew)]; simpl.
    + now apply IH.
    + apply IH. now apply names_distinct_snoc.
Qed.

Hypothesis name_eq_refl : forall n, name_eq n n = true.

Lemma insert_all_keeps_names (table table' : list laptop_row)
    (laptops : list (laptop * db_fault)) (name : string) :
  insert_all table laptops = Ok table' ->
  (exists r, r ∈ table /\ name_eq (row_name r) name = true) ->
  exists r, r ∈ table' /\ name_eq (row_name r) name = true.
Proof.
  intros H (r & Hr & Hn).
  destruct (insert_all_extends table laptops) as (added & Ha & _).
  rewrite Ha in H. injection H as <-. exists r. split; [|exact Hn].
  apply elem_of_app. now left.
Qed.

Lemma insert_all_complete (table table' : list laptop_row)
    (laptops : list (laptop * db_fault)) (l : laptop) :
  (forall l' fault, (l', fault) ∈ laptops -> fault = NoFault) ->
  insert_all table laptops = Ok table' ->
  (l, NoFault) ∈ laptops ->
  exists r, r ∈ table' /\ name_eq (row_name r) (lp_name l) = true.
Proof.
  revert table. induction laptops as [|[l0 f0] laptops IH]; intros table Hnf H Hin.
  - now apply elem_of_nil in Hin.
  - simpl in H.
    assert (Hnf' : forall l' fault, (l', fault) ∈ laptops -> fault = NoFault)
      by (intros l' f' Hl'; apply (Hnf l' f'); now right).
    rewrite (Hnf l0 f0) in H by left.
    apply elem_of_cons in Hin as [[= <-]|Hin].
    + unfold insert_laptop in H.
      destruct (0 <? select_count name_eq table (lp_name l))%nat eqn:E; simpl in H.
      * rewrite E in H. simpl in H.
        apply (insert_all_keeps_names _ _ _ _ H). now apply select_count_pos.
      * rewrite E in H. simpl in H.
        apply (insert_all_keeps_names _ _ _ _ H).
        exists (row_of_laptop json_dumps l). split; [|apply name_eq_refl].
        apply elem_of_app. right. left.
    + apply exc_bind_ok in H as (t1 & _ & H). now apply (IH t1).
Qed.

Lemma insert_all_present (table : list laptop_row) (laptops : list (laptop * db_fault)) :
  (forall l fault, (l, fault) ∈ laptops ->
     fault = NoFault /\ exists r, r ∈ table /\ name_eq (row_name r) (lp_name l) = true) ->
  insert_all table laptops = Ok table.
Proof.
  induction laptops as [|[l f] laptops IH]; intros H; simpl; [reflexivity|].
  destruct (H l f) as [-> Hex]; [left|].
  apply select_count_pos in Hex. unfold insert_laptop. simpl. rewrite Hex. simpl.
  apply IH. intros l' f' Hin. apply H. now right.
Qed.

(** X27: when the database raises no error, every laptop of the batch has
    its name in the table afterwards. *)
Theorem insert_laptops_to_db_complete (table table' : list laptop_row)
    (laptops : list (laptop * db_fault)) (l : laptop) :
  (forall l' fault, (l', fault) ∈ laptops -> fault = NoFault) ->
  insert_all table laptops = Ok table' ->
  (l, NoFault) ∈ laptops ->
  exists r, r ∈ table' /\ name_eq (row_name r) (lp_name l) = true.
Proof. apply insert_all_complete. Qed.

(** X28: when the database raises no error, running the insertion again on
    the same batch inserts nothing. *)
Theorem insert_laptops_to_db_idempotent (table table' : list laptop_row)
    (laptops : list (laptop * db_fault)) :
  (forall l fault, (l, fault) ∈ laptops -> fault = NoFault) ->
  insert_all table laptops = Ok table' ->
  insert_all table' laptops = Ok table'.
Proof.
  intros Hnf H. apply insert_all_present. intros l f Hin.
  pose proof (Hnf l f Hin) as ->. split; [reflexivity|].
  exact (insert_all_complete table table' laptops l Hnf H Hin).
Qed.

End InsertProperties.

Example insert_laptops_to_db_run :
  insert_laptops_to_db json_dumps_ref String.eqb table_hp
    [ (laptop_ideapad, NoFault); (laptop_vivobook, InsertFault);
      (laptop_ideapad, NoFault); (laptop_vivobook, SelectFault) ]
  = Ok (table_hp ++ [row_of_laptop json_dumps_ref laptop_ideapad])%list.
Proof. reflexivity. Qed.

Lemma insert_laptops_to_db_distinct_witness :
  names_distinct String.eqb
    (table_hp ++ [row_of_laptop json_dumps_ref laptop_ideapad])%list.
Proof.
  apply (insert_laptops_to_db_distinct json_dumps_ref String.eqb table_hp _
           [ (laptop_ideapad, NoFault); (laptop_vivobook, InsertFault);
             (laptop_ideapad, NoFault); (laptop_vivobook, SelectFault) ]).
  - simpl. split; [constructor | exact I].
  - reflexivity.
Defined.

Lemma insert_laptops_to_db_complete_witness :
  exists r,
    r ∈ (table_hp ++ [row_of_laptop json_dumps_ref laptop_ideapad;
                      row_of_laptop json_dumps_ref laptop_vivobook])%list /\
    String.eqb (row_name r) (lp_name laptop_vivobook) = true.
Proof.
  apply (insert_laptops_to_db_complete json_dumps_ref String.eqb String.eqb_refl table_hp _
           [ (laptop_ideapad, NoFault); (laptop_vivobook, NoFault);
             (laptop_ideapad, NoFault) ]).
  - intros l f Hin.
    repeat (apply elem_of_cons in Hin as [[= _ ->]|Hin]; [reflexivity|]).
    now apply elem_of_nil in Hin.
  - reflexivity.
  - right. left.
Defined.

Lemma insert_laptops_to_db_idempotent_witness :
  insert_laptops_to_db json_dumps_ref String.eqb
    (table_hp ++ [row_of_laptop json_dumps_ref laptop_ideapad;
                  row_of_laptop json_dumps_ref laptop_vivobook])%list
    [ (laptop_ideapad, NoFault); (laptop_vivobook, NoFault); (laptop_ideapad, NoFault) ]
  = Ok (table_hp ++ [row_of_laptop json_dumps_ref laptop_ideapad;
                     row_of_laptop json_dumps_ref laptop_vivobook])%list.
Proof.
  apply (insert_laptops_to_db_idempotent json_dumps_ref String.eqb String.eqb_refl table_hp).
  - intros l f Hin.
    repeat (apply elem_of_cons in Hin as [[= _ ->]|Hin]; [reflexivity|]).
    now apply elem_of_nil in Hin.
  - reflexivity.
Defined.

(** ** Printing and reading integers *)

Lemma string_app_cons (c : ascii) (s t : string) : String c s ++ t = String c (s ++ t).
Proof. reflexivity. Qed.

Lemma string_app_assoc (s t u : string) : (s ++ t) ++ u = s ++ (t ++ u).
Proof.
  induction s as [|c s IH]; [reflexivity|]. now rewrite !string_app_cons, IH.
Qed.

Lemma digits_of_pos_fuel_acc (fuel : nat) (n : N) (acc : string) :
  digits_of_pos_fuel fuel n acc = digits_of_pos_fuel fuel n EmptyString ++ acc.
Proof.
  revert n acc. induction fuel as [|fuel IH]; intros n acc; simpl; [reflexivity|].
  destruct (n / 10 =? 0)%N; [reflexivity|].
  rewrite (IH _ (String _ acc)), (IH _ (String _ EmptyString)).
  now rewrite string_app_assoc.
Qed.

Lemma digits_value_app (a : N) (s t : string) :
  digits_value a (s ++ t) = digits_value (digits_value a s) t.
Proof. revert a. induction s as [|c s IH]; intros a; simpl; [reflexivity | apply IH]. Qed.

Lemma all_digits_app (s t : string) :
  all_digits (s ++ t) = all_digits s && all_digits t.
Proof.
  induction s as [|c s IH]; simpl; [reflexivity|]. rewrite IH. now rewrite andb_assoc.
Qed.

Lemma digit_char (d : N) :
  (d < 10)%N ->
  code (ascii_of_N (48 + d)) = (48 + d)%N /\ is_digit (ascii_of_N (48 + d)) = true.
Proof.
  intros H.
  assert (Hc : code (ascii_of_N (48 + d)) = (48 + d)%N)
    by (unfold code; apply N_ascii_embedding; lia).
  split; [exact Hc|]. unfold is_digit. rewrite Hc.
  apply andb_true_iff. split; apply N.leb_le; lia.
Qed.

Lemma digits_of_pos_fuel_S (fuel : nat) (n : N) (acc : string) :
  digits_of_pos_fuel (S fuel) n acc
  = if (n / 10 =? 0)%N then String (ascii_of_N (48 + n mod 10)) acc
    else digits_of_pos_fuel fuel (n / 10) (String (ascii_of_N (48 + n mod 10)) acc).
Proof. reflexivity. Qed.

Lemma digits_of_pos_fuel_spec (fuel : nat) (n : N) :
  (n < 2 ^ N.of_nat (S fuel))%N ->
  digits_value 0 (digits_of_pos_fuel (S fuel) n EmptyString) = n /\
  all_digits (digits_of_pos_fuel (S fuel) n EmptyString) = true /\
  digits_of_pos_fuel (S fuel) n EmptyString <> EmptyString.
Proof.
  revert n. induction fuel as [|fuel IH]; intros n Hn.
  - assert (Hlt : (n < 2)%N) by (simpl in Hn; lia).
    assert (Hd : (n / 10 = 0)%N) by (apply N.div_small; lia).
    assert (Hm : (n mod 10 = n)%N) by (apply N.mod_small; lia).
    simpl. rewrite Hd. simpl. rewrite Hm.
    destruct (digit_char n ltac:(lia)) as [Hc Hdig].
    rewrite Hc, Hdig. repeat split; [lia | discriminate].
  - pose proof (N.mod_lt n 10 ltac:(lia)) as Hmod.
    destruct (digit_char (n mod 10) Hmod) as [Hc Hdig].
    rewrite (digits_of_pos_fuel_S (S fuel) n). destruct (n / 10 =? 0)%N eqn:Ed.
    + apply N.eqb_eq in Ed. simpl. rewrite Hc, Hdig.
      pose proof (N.div_mod n 10 ltac:(lia)) as Hdm.
      repeat split; [lia | discriminate].
    + rewrite digits_of_pos_fuel_acc.
      assert (Hn' : (n / 10 < 2 ^ N.of_nat (S fuel))%N).
      { apply N.Div0.div_lt_upper_bound.
        replace (N.of_nat (S (S fuel))) with (N.succ (N.of_nat (S fuel))) in Hn by lia.
        rewrite N.pow_succ_r' in Hn. lia. }
      destruct (IH _ Hn') as (Hv & Ha & Hne).
      rewrite digits_value_app, Hv, all_digits_app, Ha.
      cbn [digits_value all_digits andb]. rewrite Hc, Hdig.
      pose proof (N.div_mod n 10 ltac:(lia)) as Hdm.
      split; [|split; [reflexivity|]].
      * generalize dependent (n / 10)%N. generalize dependent (n mod 10)%N.
        intros. lia.
      * destruct (digits_of_pos_fuel (S fuel) (n / 10) EmptyString); discriminate.
Qed.

Lemma str_of_N_spec (n : N) :
  digits_value 0 (str_of_N n) = n /\
  all_digits (str_of_N n) = true /\
  str_of_N n <> EmptyString.
Proof.
  unfold str_of_N. apply digits_of_pos_fuel_spec.
  destruct n as [|p]; [reflexivity|].
  rewrite Nat2N.inj_succ, N2Nat.id. apply N.log2_spec. reflexivity.
Qed.




Lemma py_str_positive_injective (p q : Z) :
  (0 <= p)%Z -> (0 <= q)%Z -> py_str (PInt p) = py_str (PInt q) -> p = q.
Proof.
  intros Hp Hq. simpl.
  destruct (Z.ltb_spec p 0) as [Hp0|_]; [lia|].
  destruct (Z.ltb_spec q 0) as [Hq0|_]; [lia|].
  intros Heq. apply (f_equal (digits_value 0)) in Heq.
  rewrite (proj1 (str_of_N_spec _)), (proj1 (str_of_N_spec _)) in Heq. lia.
Qed.

Lemma string_app_inv_head (s t u : string) : s ++ t = s ++ u -> t = u.
Proof.
  induction s as [|c s IH]; [auto|]. rewrite !string_app_cons. intros [= H]. auto.
Qed.

(** X30: in each of the three scrapers, the pages of a crawl have pairwise
    different addresses: for page numbers from 1 on, the address determines
    the page. *)
Theorem paginated_url_injective (url : string) (p q : Z) :
  (1 <= p)%Z -> (1 <= q)%Z ->
  (cpu_paginated_url url p = cpu_paginated_url url q -> p = q) /\
  (laptopexcel_paginated_url url p = laptopexcel_paginated_url url q -> p = q) /\
  (laptops_paginated_url url p = laptops_paginated_url url q -> p = q).
Proof.
  intros Hp Hq.
  unfold cpu_paginated_url, laptopexcel_paginated_url, laptops_paginated_url.
  split; [|split].
  - intros H. apply string_app_inv_head in H.
    apply (string_app_inv_head "&page=") in H.
    apply py_str_positive_injective in H; lia.
  - destruct (contains "?_" url); intros H; apply string_app_inv_head in H.
    + apply (string_app_inv_head "&p=") in H.
      apply py_str_positive_injective in H; lia.
    + apply (string_app_inv_head "?p=") in H.
      apply py_str_positive_injective in H; lia.
  - intros H. apply string_app_inv_head in H.
    apply (string_app_inv_head "?page=") in H.
    apply py_str_positive_injective in H; lia.
Qed.

Example laptopexcel_paginated_url_run :
  laptopexcel_paginated_url "https://2b.com.eg/ar/computers/laptops.html?_=1733227040653" 2
  = "https://2b.com.eg/ar/computers/laptops.html?_=1733227040653&p=2" /\
  laptopexcel_paginated_url "https://2b.com.eg/ar/computers/laptops.html" 2
  = "https://2b.com.eg/ar/computers/laptops.html?p=2".
Proof. split; reflexivity. Qed.

Lemma paginated_url_injective_witness :
  cpu_paginated_url "https://www.amazon.com/s?k=AMD+Ryzen+Processor" 1
  <> cpu_paginated_url "https://www.amazon.com/s?k=AMD+Ryzen+Processor" 2 /\
  laptopexcel_paginated_url "https://2b.com.eg/ar/computers/laptops.html" 2
  <> laptopexcel_paginated_url "https://2b.com.eg/ar/computers/laptops.html" 3.
Proof.
  split; intros H.
  - apply (proj1 (paginated_url_injective _ 1 2 ltac:(lia) ltac:(lia))) in H.
    discriminate.
  - apply (proj1 (proj2 (paginated_url_injective _ 2 3 ltac:(lia) ltac:(lia)))) in H.
    discriminate.
Defined.
